(** * Smart-Plant-Monitor: the predictive control core

    A shallow embedding of the actuator-control service
    ([services/actuator-control/safety.py], [control_logic.py], the command
    handlers of [main.py]) and of the machine-learning module
    ([machine-learning/actuator_model.py], [trend_predictor.py]), with the
    properties the specification states about them.

    Conventions.
    - A Python [dict] keyed by strings is a [gmap string _]; a dict whose
      iteration order is observable (a sensor reading walked by a [for] loop)
      is an association list in insertion order.
    - [datetime] values are integers counting microseconds, which is the
      resolution of [datetime.now()]; [timedelta(minutes=1)] is 60 000 000.
    - A call that can raise returns a [result]: the value, or the exception
      raised; a [try/except] that swallows an exception is written out.
    - The [logger] is the list of records a call emits. *)

From Stdlib Require Import ZArith QArith Qabs Qround Reals Lia Lqa Lra.
From Stdlib Require Import PrimFloat SpecFloat FloatOps FloatAxioms.
From stdpp Require Import base option list gmap strings.

Close Scope Q_scope.
Open Scope Z_scope.

(** ** Comparisons on rationals, as booleans *)

Definition Qlt_bool (x y : Q) : bool := negb (Qle_bool y x).

(** * services/actuator-control/safety.py *)

Module Safety.

(** What a caller may pass as [duration]: the handlers forward
    [payload.get('duration', 0)] of a decoded JSON object.  A number is kept
    exactly; any other value ([None], a string, a list, ...) makes the
    comparison [duration < 0] raise [TypeError].  (The non-finite floats
    some JSON decoders accept are not represented.) *)
Inductive pyval : Type :=
  | PyNum (q : Q)
  | PyOther.

Inductive level : Type := ERROR | WARNING.

(** The records [validate_command] and [_check_rate_limit] hand to the
    logger, one constructor per call site. *)
Inductive log_event : Type :=
  | UnknownActuator (actuator : string)
  | InvalidAction (action : string)
  | NegativeDuration (duration : Q)
  | DurationExceedsMax (actuator : string) (cap : Q)
  | RateLimitExceeded (actuator : string)
  | ErrorValidating.

Definition level_of (e : log_event) : level :=
  match e with
  | UnknownActuator _ | InvalidAction _ | NegativeDuration _
  | ErrorValidating => ERROR
  | DurationExceedsMax _ _ | RateLimitExceeded _ => WARNING
  end.

(** [MAX_DURATIONS], in seconds. *)
Definition MAX_DURATIONS : gmap string Q :=
  <["pump" := 1800%Q]> (<["fan" := 3600%Q]> (<["grow_light" := 14400%Q]> ∅)).

Definition MAX_COMMANDS_PER_MINUTE : nat := 10.

(** [timedelta(minutes=1)] in microseconds. *)
Definition one_minute : Z := 60000000.

(** [self.command_history]: a [defaultdict(list)] of command times. *)
Abbreviation history := (gmap string (list Z)).

(** Reading [self.command_history[actuator]]: a missing key reads as the
    empty list. *)
Definition history_of (h : history) (actuator : string) : list Z :=
  default [] (h !! actuator).

(** The list comprehension of [_check_rate_limit]:
    [[t for t in ... if t > minute_ago]]. *)
Definition recent (now : Z) (times : list Z) : list Z :=
  filter (λ cmd_time, now - one_minute < cmd_time) times.

(** [_check_rate_limit]: prunes the actuator's list in place, then compares
    its length with the limit.  [now] is the value [datetime.now()] returns
    inside the call. *)
Definition _check_rate_limit (h : history) (now : Z) (actuator : string)
  : bool * history * list log_event :=
  let kept := recent now (history_of h actuator) in
  let h' := <[actuator := kept]> h in
  if bool_decide (MAX_COMMANDS_PER_MINUTE ≤ length kept)%nat
  then (false, h', [RateLimitExceeded actuator])
  else (true, h', []).

(** [_record_command]: appends the value of a second [datetime.now()]. *)
Definition _record_command (h : history) (now : Z) (actuator : string)
  : history :=
  <[actuator := history_of h actuator ++ [now]]> h.

(** The duration-cap statement of [validate_command].  It only logs; the
    f-string indexes [MAX_DURATIONS[actuator]], which raises [KeyError] for
    a key outside the table ([None] below). *)
Definition cap_warning (actuator : string) (d : Q) : option (list log_event) :=
  if Qlt_bool (default 3600%Q (MAX_DURATIONS !! actuator)) d
  then match MAX_DURATIONS !! actuator with
       | Some cap => Some [DurationExceedsMax actuator cap]
       | None => None
       end
  else Some [].

(** [validate_command].  [t_check] and [t_record] are the two clock readings
    the call makes, the first in [_check_rate_limit], the second in
    [_record_command]. The result is the returned boolean, the history after
    the call and the log records emitted. *)
Definition validate_command (h : history) (t_check t_record : Z)
    (actuator action : string) (duration : pyval)
  : bool * history * list log_event :=
  if negb (bool_decide (actuator ∈ ["pump"; "fan"; "grow_light"]))
  then (false, h, [UnknownActuator actuator])
  else if negb (bool_decide (action ∈ ["ON"; "OFF"]))
  then (false, h, [InvalidAction action])
  else match duration with
  | PyOther => (false, h, [ErrorValidating])
  | PyNum d =>
    if Qlt_bool d 0 then (false, h, [NegativeDuration d])
    else match cap_warning actuator d with
    | None => (false, h, [ErrorValidating])
    | Some warn =>
      match _check_rate_limit h t_check actuator with
      | (false, h', lg) => (false, h', warn ++ lg ++ [RateLimitExceeded actuator])
      | (true, h', lg) =>
        (true, _record_command h' t_record actuator, warn ++ lg)
      end
    end
  end.

(** A call of [validate_command] together with the clock readings it
    makes. *)
Record call : Type := Call {
  c_actuator : string;
  c_action : string;
  c_duration : pyval;
  c_check : Z;
  c_record : Z
}.

Definition step (h : history) (c : call) : bool * history * list log_event :=
  validate_command h (c_check c) (c_record c)
    (c_actuator c) (c_action c) (c_duration c).

(** The history after a sequence of calls. *)
Definition run (h : history) (cs : list call) : history :=
  foldl (λ h c, (step h c).1.2) h cs.

(** The recorded times of the calls of [cs] that were accepted for
    [actuator], in order. *)
Fixpoint accepted_times (actuator : string) (h : history) (cs : list call)
  : list Z :=
  match cs with
  | [] => []
  | c :: cs' =>
    let '(ok, h', _) := step h c in
    (if ok && bool_decide (c_actuator c = actuator) then [c_record c] else [])
      ++ accepted_times actuator h' cs'
  end.

(** The three ways a call can end: rejected before the rate-limit check
    (history untouched), rejected by it (the actuator's list pruned), or
    accepted (pruned, then the new time appended). *)
Inductive outcome (h : history) (t_check t_record : Z) (actuator : string)
  : bool → history → Prop :=
  | rejected_early : outcome h t_check t_record actuator false h
  | rejected_rate :
      (MAX_COMMANDS_PER_MINUTE ≤ length (recent t_check (history_of h actuator)))%nat →
      outcome h t_check t_record actuator false
        (<[actuator := recent t_check (history_of h actuator)]> h)
  | accepted :
      (length (recent t_check (history_of h actuator)) < MAX_COMMANDS_PER_MINUTE)%nat →
      outcome h t_check t_record actuator true
        (<[actuator := recent t_check (history_of h actuator) ++ [t_record]]> h).

End Safety.

(** * services/actuator-control/control_logic.py *)

Module ControlLogic.

(** One entry of [self.actuator_timers]; [time.time()] and durations are
    seconds. *)
Record timer : Type := Timer {
  start_time : option Q;
  duration : Q
}.

Abbreviation timers := (gmap string timer).

Definition off : timer := Timer None 0%Q.

(** [__init__]. *)
Definition init : timers :=
  <["pump" := off]> (<["fan" := off]> (<["grow_light" := off]> ∅)).

Definition activate_pump (t : timers) (now d : Q) : timers :=
  <["pump" := Timer (Some now) d]> t.

Definition deactivate_pump (t : timers) : timers :=
  <["pump" := Timer None 0%Q]> t.

Definition activate_fan (t : timers) (now d : Q) : timers :=
  <["fan" := Timer (Some now) d]> t.

Definition deactivate_fan (t : timers) : timers :=
  <["fan" := Timer None 0%Q]> t.

Definition activate_light (t : timers) (now d : Q) : timers :=
  <["grow_light" := Timer (Some now) d]> t.

Definition deactivate_light (t : timers) : timers :=
  <["grow_light" := Timer None 0%Q]> t.

(** [deactivate_all]: the three calls in order; none of them can raise. *)
Definition deactivate_all (t : timers) : timers :=
  deactivate_light (deactivate_fan (deactivate_pump t)).

(** Truth value of [timer['start_time']]: [None] and [0.0] are false. *)
Definition started (tm : timer) : option Q :=
  match start_time tm with
  | Some s => if Qeq_bool s 0 then None else Some s
  | None => None
  end.

(** The body of the loop of [check_duration_expired] for one entry. *)
Definition expire_one (current_time : Q) (t : timers) (actuator : string)
  : timers :=
  match t !! actuator with
  | Some tm =>
    match started tm with
    | Some s =>
      if Qlt_bool 0 (duration tm) && Qlt_bool (duration tm) (current_time - s)
      then if bool_decide (actuator = "pump") then deactivate_pump t
           else if bool_decide (actuator = "fan") then deactivate_fan t
           else if bool_decide (actuator = "grow_light") then deactivate_light t
           else t
      else t
    | None => t
    end
  | None => t
  end.

(** [check_duration_expired]: the dictionary holds the three keys of
    [__init__] in that order. *)
Definition check_duration_expired (t : timers) (current_time : Q) : timers :=
  foldl (expire_one current_time) t ["pump"; "fan"; "grow_light"].

Inductive status : Type :=
  | OFF
  | ON (elapsed remaining : Q).

(** [get_status]; [now] is the value of [time.time()]. *)
Definition get_status (t : timers) (now : Q) (actuator : string) : status :=
  match t !! actuator with
  | Some tm =>
    match started tm with
    | Some s =>
      let elapsed := (now - s)%Q in
      ON elapsed
         (if Qlt_bool 0 (duration tm) then (duration tm - elapsed)%Q
          else (-1)%Q)
    | None => OFF
    end
  | None => OFF
  end.

End ControlLogic.

(** * services/actuator-control/main.py: the command handlers *)

Module Main.

(** [str.upper] on the ASCII letters. *)
Definition upper_ascii (c : Ascii.ascii) : Ascii.ascii :=
  let n := Ascii.nat_of_ascii c in
  if bool_decide (97 ≤ n ≤ 122)%nat then Ascii.ascii_of_nat (n - 32) else c.

Fixpoint upper (s : string) : string :=
  match s with
  | EmptyString => EmptyString
  | String c s' => String (upper_ascii c) (upper s')
  end.

(** A decoded command: [payload.get('action', '')], a string, and
    [payload.get('duration', 0)]. *)
Record payload : Type := Payload {
  p_action : string;
  p_duration : Safety.pyval
}.

(** One entry of the global [actuator_status]. *)
Record status_entry : Type := StatusEntry {
  status : string;
  last_command : option Z;
  status_duration : Q
}.

(** The globals the handlers share: the [SafetyManager], the
    [ControlLogic], [actuator_status] and the ['temperature'] entry of
    [current_sensor_data]: [None] while the dictionary has no such key,
    afterwards whatever the last reading carried. *)
Record service : Type := Service {
  safety_manager : Safety.history;
  control_logic : ControlLogic.timers;
  actuator_status : gmap string status_entry;
  temperature : option Safety.pyval
}.

(** [current_sensor_data.get('temperature', 0) > 40]; [None] when the
    comparison raises [TypeError], which the handler catches and logs. *)
Definition too_hot (s : service) : option bool :=
  match temperature s with
  | None => Some false
  | Some (Safety.PyNum t) => Some (Qlt_bool 40 t)
  | Some Safety.PyOther => None
  end.

(** The clock readings of one handler call: the two [datetime.now()] of
    [validate_command] in microseconds, then [time.time()] in the
    activation and in the status update, in seconds. *)
Record clock : Type := Clock {
  t_check : Z;
  t_record : Z;
  t_activate : Q;
  t_status : Q
}.

(** [int(time.time() * 1000)]. *)
Definition millis (t : Q) : Z := Qfloor (t * 1000).

(** [handle_pump_command], up to the publication of the status. *)
Definition handle_pump_command (s : service) (k : clock) (p : payload)
  : service :=
  let action := upper (p_action p) in
  let '(ok, h, _) :=
    Safety.validate_command (safety_manager s) (t_check k) (t_record k)
      "pump" action (p_duration p) in
  let s := Service h (control_logic s) (actuator_status s) (temperature s) in
  if negb ok then s
  else match p_duration p with
  | Safety.PyOther => s
  | Safety.PyNum duration =>
    if bool_decide (action = "ON")
    then Service h
           (ControlLogic.activate_pump (control_logic s) (t_activate k)
              duration)
           (<["pump" := StatusEntry "ON" (Some (millis (t_status k)))
                          duration]> (actuator_status s))
           (temperature s)
    else if bool_decide (action = "OFF")
    then Service h
           (ControlLogic.deactivate_pump (control_logic s))
           (<["pump" := StatusEntry "OFF" (Some (millis (t_status k))) 0]>
              (actuator_status s))
           (temperature s)
    else s
  end.

(** [handle_fan_command]. *)
Definition handle_fan_command (s : service) (k : clock) (p : payload)
  : service :=
  let action := upper (p_action p) in
  let '(ok, h, _) :=
    Safety.validate_command (safety_manager s) (t_check k) (t_record k)
      "fan" action (p_duration p) in
  let s := Service h (control_logic s) (actuator_status s) (temperature s) in
  if negb ok then s
  else match p_duration p with
  | Safety.PyOther => s
  | Safety.PyNum duration =>
    if bool_decide (action = "ON")
    then Service h
           (ControlLogic.activate_fan (control_logic s) (t_activate k)
              duration)
           (<["fan" := StatusEntry "ON" (Some (millis (t_status k)))
                         duration]> (actuator_status s))
           (temperature s)
    else if bool_decide (action = "OFF")
    then Service h
           (ControlLogic.deactivate_fan (control_logic s))
           (<["fan" := StatusEntry "OFF" (Some (millis (t_status k))) 0]>
              (actuator_status s))
           (temperature s)
    else s
  end.

(** [handle_light_command]: as above, with the temperature interlock
    before the activation. *)
Definition handle_light_command (s : service) (k : clock) (p : payload)
  : service :=
  let action := upper (p_action p) in
  let '(ok, h, _) :=
    Safety.validate_command (safety_manager s) (t_check k) (t_record k)
      "grow_light" action (p_duration p) in
  let s := Service h (control_logic s) (actuator_status s) (temperature s) in
  if negb ok then s
  else match p_duration p with
  | Safety.PyOther => s
  | Safety.PyNum duration =>
    if bool_decide (action = "ON")
    then match too_hot s with
         | None | Some true => s
         | Some false =>
           Service h
             (ControlLogic.activate_light (control_logic s) (t_activate k)
                duration)
             (<["grow_light" := StatusEntry "ON" (Some (millis (t_status k)))
                                  duration]> (actuator_status s))
             (temperature s)
         end
    else if bool_decide (action = "OFF")
    then Service h
           (ControlLogic.deactivate_light (control_logic s))
           (<["grow_light" := StatusEntry "OFF" (Some (millis (t_status k)))
                                0]> (actuator_status s))
           (temperature s)
    else s
  end.

End Main.

(** * services/actuator-control/safety.py: interlocks and limits *)

Module Interlocks.

(** A value of the [sensor_data] dictionary: a number, [None], or any
    other object, of which only the truth value matters. *)
Inductive sval : Type :=
  | SNum (q : Q)
  | SNone
  | SOther (truthy : bool).

(** [sensor_data.get(key)]: [None] for a missing key. *)
Definition get (sensor_data : gmap string sval) (key : string) : sval :=
  default SNone (sensor_data !! key).

(** [sensor_data.get(key, 0)]. *)
Definition get0 (sensor_data : gmap string sval) (key : string) : sval :=
  default (SNum 0) (sensor_data !! key).

(** [value > limit]: [None] when the comparison raises [TypeError]. *)
Definition exceeds (value : sval) (limit : Q) : option bool :=
  match value with
  | SNum q => Some (Qlt_bool limit q)
  | SNone | SOther _ => None
  end.

(** The truth value of [value]. *)
Definition truth (value : sval) : bool :=
  match value with
  | SNum q => negb (Qeq_bool q 0)
  | SNone => false
  | SOther truthy => truthy
  end.

(** [check_interlocks]; an exception is caught and answered [False]. *)
Definition check_interlocks (actuator : string)
    (sensor_data : gmap string sval) : bool :=
  if bool_decide (actuator = "grow_light")
  then match exceeds (get0 sensor_data "temperature") 40 with
       | Some true => false
       | Some false => true
       | None => false
       end
  else true.

(** One check of [check_safety_limits]: [value and value > limit].  The
    result is whether the alert is appended, [None] when the comparison
    raises. *)
Definition over_limit (value : sval) (limit : Q) : option bool :=
  if truth value then exceeds value limit else Some false.

(** [check_safety_limits]: the returned boolean and the alerts logged. *)
Definition check_safety_limits (sensor_data : gmap string sval)
  : bool * list string :=
  match over_limit (get sensor_data "temperature") 45 with
  | None => (false, [])
  | Some hot =>
    let alerts := if hot then ["Critical: Temperature too high"] else [] in
    match over_limit (get sensor_data "humidity") 95 with
    | None => (false, [])
    | Some humid =>
      let alerts :=
        alerts ++ (if humid then ["Warning: Very high humidity"] else []) in
      match over_limit (get sensor_data "soil_moisture") 95 with
      | None => (false, [])
      | Some wet =>
        let alerts :=
          alerts ++ (if wet then ["Warning: Soil over-saturated"] else []) in
        (bool_decide (length alerts = 0%nat), alerts)
      end
    end
  end.

(** A reading that raises no alert against a limit: a number within it,
    or a value whose truth value is false. *)
Definition within_limit (value : sval) (limit : Q) : Prop :=
  match value with
  | SNum q => (q <= limit)%Q
  | SNone => True
  | SOther truthy => truthy = false
  end.

(** [value < limit]: [None] when the comparison raises [TypeError]. *)
Definition below (value : sval) (limit : Q) : option bool :=
  match value with
  | SNum q => Some (Qlt_bool q limit)
  | SNone | SOther _ => None
  end.

(** The ['temperature'] entry as the handlers of [main.py] see it. *)
Definition to_pyval (value : sval) : Safety.pyval :=
  match value with
  | SNum q => Safety.PyNum q
  | SNone | SOther _ => Safety.PyOther
  end.

End Interlocks.

(** * services/actuator-control: expiry, emergency stop, auto-control *)

Module Automation.
Import Interlocks.

(** The test of [check_duration_expired] on one timer:
    [timer['start_time'] and timer['duration'] > 0] and
    [elapsed > timer['duration']]. *)
Definition is_expired (tm : ControlLogic.timer) (current_time : Q) : bool :=
  match ControlLogic.started tm with
  | Some s =>
    Qlt_bool 0 (ControlLogic.duration tm)
    && Qlt_bool (ControlLogic.duration tm) (current_time - s)
  | None => false
  end.

(** [actuator_status[key]['status'] == value]; [None] when the key is
    missing and the lookup raises [KeyError]. *)
Definition status_is (st : gmap string Main.status_entry) (key value : string)
  : option bool :=
  (λ e, bool_decide (Main.status e = value)) <$> st !! key.

(** [actuator_status[key]['status'] = value], which keeps the other two
    fields of the entry; [None] when the key is missing. *)
Definition set_status (st : gmap string Main.status_entry) (key value : string)
  : option (gmap string Main.status_entry) :=
  (λ e, <[key := Main.StatusEntry value (Main.last_command e)
                   (Main.status_duration e)]> st) <$> st !! key.

(** [handle_global_control], up to the publication; [enable] is the truth
    value of [payload.get('enable', False)].  A [KeyError] in one of the
    three status updates ends the handler there. *)
Definition handle_global_control (s : Main.service) (enable : bool)
  : Main.service :=
  if enable then
    let control := ControlLogic.deactivate_all (Main.control_logic s) in
    let with_status st :=
      Main.Service (Main.safety_manager s) control st (Main.temperature s) in
    match set_status (Main.actuator_status s) "pump" "OFF" with
    | None => with_status (Main.actuator_status s)
    | Some st1 =>
      match set_status st1 "fan" "OFF" with
      | None => with_status st1
      | Some st2 =>
        match set_status st2 "grow_light" "OFF" with
        | None => with_status st2
        | Some st3 => with_status st3
        end
      end
    end
  else s.

(** What [perform_auto_control] reads and writes: [current_sensor_data],
    the timers and [actuator_status]. *)
Record plant : Type := Plant {
  sensors : gmap string sval;
  control : ControlLogic.timers;
  statuses : gmap string Main.status_entry
}.

(** One of the three blocks of [perform_auto_control]:
    [if value is not None:] [if on_test and status == 'OFF': on_body]
    [elif off_test and status == 'ON': off_body].  [None] when a test
    raises, which happens before the block changes anything. *)
Definition auto_block (value : sval) (on_test off_test : option bool)
    (key : string) (on_body off_body : plant → plant) (p : plant)
  : option plant :=
  match value with
  | SNone => Some p
  | _ =>
    on ← on_test;
    is_off ← (if on then status_is (statuses p) key "OFF" else Some false);
    if on && is_off then Some (on_body p)
    else
      off ← off_test;
      is_on ← (if off then status_is (statuses p) key "ON" else Some false);
      if off && is_on then Some (off_body p) else Some p
  end.

(** The status update of the fan and light blocks and of every
    deactivation: only the ['status'] field is assigned. *)
Definition mark (key value : string) (st : gmap string Main.status_entry)
  : gmap string Main.status_entry :=
  default st (set_status st key value).

(** A reading the comparisons of [perform_auto_control] accept: a number
    or [None]. *)
Definition numeric_or_none (value : sval) : Prop :=
  match value with
  | SNum _ | SNone => True
  | SOther _ => False
  end.

(** A reading inside a dead band: [None], or a number from [lo] to [hi]. *)
Definition in_band (value : sval) (lo hi : Q) : Prop :=
  match value with
  | SNum q => (lo <= q <= hi)%Q
  | SNone => True
  | SOther _ => False
  end.

(** [p'] differs from [p] at most in the timers and in the status entry
    of [key]. *)
Definition same_except (key : string) (p p' : plant) : Prop :=
  sensors p' = sensors p
  ∧ ∀ k, k ≠ key → statuses p' !! k = statuses p !! k.

(** The clock readings [perform_auto_control] can make: [time.time()] in
    each of the three activations and [int(time.time() * 1000)] for the
    pump's status entry. *)
Record auto_clock : Type := AutoClock {
  t_pump : Q;
  t_pump_ms : Z;
  t_fan : Q;
  t_light : Q
}.

(** [perform_auto_control].  An exception is caught and ends the function,
    keeping what the earlier blocks did. *)
Definition perform_auto_control (k : auto_clock) (p : plant) : plant :=
  let moisture := get (sensors p) "soil_moisture" in
  let temp := get (sensors p) "temperature" in
  let light := get (sensors p) "light_intensity" in
  match auto_block moisture (below moisture 30) (exceeds moisture 70) "pump"
          (λ p, Plant (sensors p)
                  (ControlLogic.activate_pump (control p) (t_pump k) 300)
                  (<["pump" := Main.StatusEntry "ON" (Some (t_pump_ms k)) 300]>
                     (statuses p)))
          (λ p, Plant (sensors p)
                  (ControlLogic.deactivate_pump (control p))
                  (mark "pump" "OFF" (statuses p)))
          p with
  | None => p
  | Some p1 =>
    match auto_block temp (exceeds temp 30) (below temp 25) "fan"
            (λ p, Plant (sensors p)
                    (ControlLogic.activate_fan (control p) (t_fan k) 0)
                    (mark "fan" "ON" (statuses p)))
            (λ p, Plant (sensors p)
                    (ControlLogic.deactivate_fan (control p))
                    (mark "fan" "OFF" (statuses p)))
            p1 with
    | None => p1
    | Some p2 =>
      match auto_block light (below light 20) (exceeds light 60) "grow_light"
              (λ p, Plant (sensors p)
                      (ControlLogic.activate_light (control p) (t_light k) 0)
                      (mark "grow_light" "ON" (statuses p)))
              (λ p, Plant (sensors p)
                      (ControlLogic.deactivate_light (control p))
                      (mark "grow_light" "OFF" (statuses p)))
              p2 with
      | None => p2
      | Some p3 => p3
      end
    end
  end.

End Automation.

(** * Python exceptions and the tabular data of the learning module *)

Inductive exn : Type :=
  | ValueError (msg : string)
  | KeyError (key : string)
  | AttributeError (msg : string).

Inductive result (A : Type) : Type :=
  | Ok (a : A)
  | Raise (e : exn).
Arguments Ok {A} a.
Arguments Raise {A} e.

(** A [pandas.DataFrame]: named columns and rows holding one cell per
    column. *)
Record DataFrame (A : Type) : Type := Frame {
  df_columns : list string;
  df_rows : list (list A)
}.
Arguments Frame {A} df_columns df_rows.
Arguments df_columns {A} _.
Arguments df_rows {A} _.

(** [len(df)]. *)
Definition df_len {A} (df : DataFrame A) : nat := length (df_rows df).

(** Position of a column name. *)
Fixpoint col_index (name : string) (cols : list string) : option nat :=
  match cols with
  | [] => None
  | c :: cols' =>
    if bool_decide (c = name) then Some 0%nat
    else S <$> col_index name cols'
  end.

(** [df[name]]: the cells of one column, [KeyError] when the frame has no
    such column. *)
Definition df_col {A} (name : string) (df : DataFrame A) : result (list A) :=
  match col_index name (df_columns df) with
  | Some j => Ok (omap (λ r : list A, r !! j) (df_rows df))
  | None => Raise (KeyError name)
  end.

(** [df.iloc[idx]]: the rows at the given positions, in that order. *)
Definition df_take {A} (idx : list nat) (df : DataFrame A) : DataFrame A :=
  Frame (df_columns df) (omap (λ i, df_rows df !! i) idx).

(** * machine-learning/actuator_model.py *)

Module ActuatorModel.

(** [config.py]. *)
Definition FEATURE_NAMES : list string :=
  ["temperature"; "humidity"; "soil_moisture"; "light_intensity"].

Definition TARGET_ACTUATORS : list string := ["fan"; "pump"; "light"].

(** [np.argmax]: the first position of the largest entry. *)
Fixpoint argmax_from (best_i : nat) (best : Q) (i : nat) (l : list Q) : nat :=
  match l with
  | [] => best_i
  | x :: l' =>
    if Qlt_bool best x then argmax_from i x (S i) l'
    else argmax_from best_i best (S i) l'
  end.

Definition argmax (l : list Q) : option nat :=
  match l with
  | [] => None
  | x :: l' => Some (argmax_from 0 x 1 l')
  end.

Section Learner.

(** The scikit-learn interface [ActuatorController] is written against.
    [V] is the type of a sensor value and [Model] a fitted
    [RandomForestClassifier]. *)
Context {V Model : Type}.

(** [train_test_split(..., test_size=TEST_SPLIT_RATIO, random_state=42)]
    on [n] samples: the row positions of the training and of the test
    part, or the exception it raises. *)
Variable train_test_split : nat → result (list nat * list nat).

(** [RandomForestClassifier(...).fit(X, y)], or the exception it raises. *)
Variable fit : DataFrame V → list bool → result Model.

(** [model.predict] on one row. *)
Variable predict_row : Model → list V → bool.

(** [model.predict_proba] on one row: one probability per class. *)
Variable predict_proba_row : Model → list V → list Q.

(** [accuracy_score(y_true, y_pred)]. *)
Variable accuracy_score : list bool → list bool → Q.

(** The attributes of an [ActuatorController] that training and inference
    read and write. *)
Record controller : Type := Controller {
  models : gmap string Model;
  feature_names : list string;
  target_names : list string;
  is_trained : bool
}.

(** The state [__init__] leaves when no model file exists. *)
Definition init : controller :=
  Controller ∅ FEATURE_NAMES TARGET_ACTUATORS false.

(** The loop of [train] over [self.target_names].  It stores each model
    as soon as it is fitted; an exception leaves the models stored so
    far in place. *)
Fixpoint train_loop (X_train X_test : DataFrame V)
    (y_train y_test : DataFrame bool) (names : list string)
    (accuracies : gmap string Q) (ms : gmap string Model)
  : result (gmap string Q) * gmap string Model :=
  match names with
  | [] => (Ok accuracies, ms)
  | actuator :: names' =>
    match df_col actuator y_train with
    | Raise e => (Raise e, ms)
    | Ok y_col =>
      match fit X_train y_col with
      | Raise e => (Raise e, ms)
      | Ok model =>
        let y_pred := predict_row model <$> df_rows X_test in
        match df_col actuator y_test with
        | Raise e => (Raise e, ms)
        | Ok y_true =>
          train_loop X_train X_test y_train y_test names'
            (<[actuator := accuracy_score y_true y_pred]> accuracies)
            (<[actuator := model]> ms)
        end
      end
    end
  end.

(** [train]: the returned accuracies (or the exception) and the
controller afterwards.  [train_test_split] first checks that the two
frames have as many rows; the calls that only log ([classification_report],
[_log_feature_importance]) are left out. *)
Definition train (c : controller) (features_df : DataFrame V)
    (targets_df : DataFrame bool)
  : result (gmap string Q) * controller :=
  if negb (bool_decide (df_len features_df = df_len targets_df))
  then (Raise (ValueError
          "Found input variables with inconsistent numbers of samples"), c)
  else
  match train_test_split (df_len features_df) with
  | Raise e => (Raise e, c)
  | Ok (train_idx, test_idx) =>
    let X_train := df_take train_idx features_df in
    let X_test := df_take test_idx features_df in
    let y_train := df_take train_idx targets_df in
    let y_test := df_take test_idx targets_df in
    match train_loop X_train X_test y_train y_test (target_names c)
            ∅ (models c) with
    | (Raise e, ms) =>
      (Raise e, Controller ms (feature_names c) (target_names c)
                  (is_trained c))
    | (Ok accuracies, ms) =>
      (Ok accuracies, Controller ms (feature_names c) (target_names c) true)
    end
  end.

(** The validation loop of [predict]: the first declared feature the
    reading lacks. *)
Definition missing_feature (c : controller) (sensor_data : gmap string V)
  : option string :=
  head (filter (λ feature, sensor_data !! feature = None)
          (feature_names c)).

(** [pd.DataFrame([sensor_data])[self.feature_names]], as its one row. *)
Definition input_row (c : controller) (sensor_data : gmap string V)
  : list V :=
  omap (λ feature, sensor_data !! feature) (feature_names c).

(** [predict]. *)
Definition predict (c : controller) (sensor_data : gmap string V)
  : result (gmap string bool) :=
  if negb (is_trained c)
  then Raise (ValueError "Models must be trained before prediction")
  else match missing_feature c sensor_data with
  | Some feature => Raise (ValueError ("Missing feature: " +:+ feature))
  | None =>
    let X := input_row c sensor_data in
    Ok ((λ model, predict_row model X) <$> models c)
  end.

(** The body of the loop of [predict_with_confidence] for one model:
    [None] when [np.argmax] raises on an empty vector. *)
Definition classify (pred_proba : list Q) : option (bool * Q) :=
  pred_class ← argmax pred_proba;
  confidence ← pred_proba !! pred_class;
  Some (negb (bool_decide (pred_class = 0%nat)), confidence).

(** [predict_with_confidence]. *)
Definition predict_with_confidence (c : controller)
    (sensor_data : gmap string V)
  : result (gmap string (bool * Q)) :=
  if negb (is_trained c)
  then Raise (ValueError "Models must be trained before prediction")
  else match missing_feature c sensor_data with
  | Some feature => Raise (ValueError ("Missing feature: " +:+ feature))
  | None =>
    let X := input_row c sensor_data in
    let out := (λ model, classify (predict_proba_row model X)) <$> models c in
    if bool_decide (map_Forall (λ _ o, is_Some o) out)
    then Ok (omap (λ o, o) out)
    else Raise (ValueError "attempt to get argmax of an empty sequence")
  end.

End Learner.

End ActuatorModel.

(** ** A stand-in for scikit-learn

    Enough of the library to run the controller on concrete tables: the
    hold-out split with the sizes [train_test_split] computes for
    [test_size=0.2] (the test part gets [ceil(0.2 n)] rows and the call
    raises when no row is left for training; the seeded shuffle is replaced
    by the identity), and a classifier that answers with the majority label
    of its training rows. *)

Module Reference.

Definition holdout_split (n : nat) : result (list nat * list nat) :=
  let n_test := ((n + 4) / 5)%nat in
  let n_train := (n - n_test)%nat in
  if bool_decide (n_train = 0%nat)
  then Raise (ValueError "the resulting train set will be empty")
  else Ok (seq 0 n_train, seq n_train n_test).

(** A fitted model: the share of positive labels it was trained on. *)
Definition share (y : list bool) : Q :=
  Z.of_nat (length (filter (λ b : bool, b = true) y))
    # Pos.of_nat (length y).

Definition majority_fit {V} (X : DataFrame V) (y : list bool) : result Q :=
  if bool_decide (df_rows X = [])
  then Raise (ValueError "Found array with 0 sample(s)")
  else Ok (share y).

Definition majority_predict {V} (model : Q) (row : list V) : bool :=
  Qlt_bool (1 # 2) model.

Definition majority_proba {V} (model : Q) (row : list V) : list Q :=
  [(1 - model)%Q; model].

(** The share of positions at which the two label lists agree. *)
Definition accuracy (y_true y_pred : list bool) : Q :=
  Z.of_nat (length (filter (λ p : bool * bool, p.1 = p.2)
                      (zip y_true y_pred)))
    # Pos.of_nat (length y_true).

(** A fitted [Ridge]: an intercept and one coefficient per column. *)
Record ridge : Type := Ridge { intercept : R; coef : list R }.

(** [Ridge.predict]: the intercept plus the weighted sum of each row. *)
Definition ridge_predict (model : ridge) (X : list (list R))
  : result (list R) :=
  Ok ((λ row, foldr Rplus (intercept model) (zip_with Rmult (coef model) row))
        <$> X).

(** [PolynomialFeatures(degree=2, include_bias=False).transform] on one
    column: each [t] becomes the row [[t, t^2]]. *)
Definition quadratic_transform (poly : unit) (ts : list Z)
  : result (list (list R)) :=
  Ok ((λ t, [IZR t; (IZR t * IZR t)%R]) <$> ts).

End Reference.

(** * machine-learning/trend_predictor.py *)

Module TrendPredictor.

(** [config.py]. *)
Definition MAX_FORECAST_HOURS : Z := 24.
Definition FORECAST_INTERVAL_MINUTES : Z := 30.

(** One element of a forecast list; [N] is the type of numbers. *)
Record ForecastPoint (N : Type) : Type := Point {
  time : string;
  minutes_ahead : Z;
  value : N;
  confidence : N
}.
Arguments Point {N} time minutes_ahead value confidence.
Arguments time {N} _.
Arguments minutes_ahead {N} _.
Arguments value {N} _.
Arguments confidence {N} _.

(** ** History buffers *)

Section History.

(** Timestamps and sensor values are only stored. *)
Context {T V : Type}.

(** The attributes [update_history] reads and writes. *)
Record buffers : Type := Buffers {
  history_buffers : gmap string (list (T * V));
  max_buffer_size : nat
}.

(** [__init__]. *)
Definition init : buffers :=
  Buffers (<["temperature" := []]> (<["humidity" := []]>
            (<["soil_moisture" := []]> (<["light_intensity" := []]> ∅))))
          1440.

(** [buf.append(x)] followed by the size check and [buf.pop(0)]. *)
Definition append_bounded (max_size : nat) (buf : list (T * V)) (x : T * V)
  : list (T * V) :=
  let buf' := buf ++ [x] in
  if bool_decide (max_size < length buf')%nat then drop 1 buf' else buf'.

(** The body of the loop of [update_history]. *)
Definition update_one (timestamp : T) (b : buffers) (item : string * V)
  : buffers :=
  let '(metric, value) := item in
  match history_buffers b !! metric with
  | Some buf =>
    Buffers (<[metric := append_bounded (max_buffer_size b) buf
                           (timestamp, value)]> (history_buffers b))
            (max_buffer_size b)
  | None => b
  end.

(** [update_history]; [data] lists the items of the reading in the order
    of [data.items()]. *)
Definition update_history (b : buffers) (timestamp : T)
    (data : list (string * V)) : buffers :=
  foldl (update_one timestamp) b data.

(** Every buffer is within the capacity. *)
Definition bounded (b : buffers) : Prop :=
  ∀ metric buf,
    history_buffers b !! metric = Some buf →
    (length buf ≤ max_buffer_size b)%nat.

(** A sequence of [update_history] calls, each with its timestamp and
reading. *)
Definition update_history_all (b : buffers)
    (calls : list (T * list (string * V))) : buffers :=
  foldl (λ b call, update_history b call.1 call.2) b calls.

End History.
Arguments buffers T V : clear implicits.

(** ** Forecasting *)

(** [np.arange(1, n + 1) * FORECAST_INTERVAL_MINUTES]. *)
Definition future_timestamps (hours_ahead : Z) : list Z :=
  let num_predictions := (hours_ahead * 60) / FORECAST_INTERVAL_MINUTES in
  (λ k : nat, Z.of_nat (S k) * FORECAST_INTERVAL_MINUTES)
    <$> seq 0 (Z.to_nat num_predictions).

(** [np.clip]. *)
Definition clip (x lo hi : R) : R := Rmin (Rmax x lo) hi.

(** The [trends] table of [_predict_simple_trends], per hour. *)
Definition trends : gmap string R :=
  <["temperature" := (5 / 10)%R]> (<["humidity" := (- 1)%R]>
    (<["soil_moisture" := (- 2)%R]> (<["light_intensity" := 0%R]> ∅))).

Section Forecast.

(** A fitted [Ridge] model and the fitted [PolynomialFeatures]. *)
Context {Model Poly : Type}.

(** [self.poly_features.transform] on the column of future timestamps,
    or the exception it raises. *)
Variable transform : Poly → list Z → result (list (list R)).

(** [model.predict] on the expanded rows, or the exception it raises. *)
Variable model_predict : Model → list (list R) → result (list R).

(** [(datetime.now() + timedelta(minutes=m)).strftime('%H:%M')] at the
    [i]-th point of a forecast list. *)
Variable time_label : nat → Z → string.

(** The draw [np.random.normal(0, scale)] made for a metric at a given
    number of minutes ahead. *)
Variable normal : string → Z → R → R.

(** The attributes [predict_future] reads. *)
Record predictor : Type := Predictor {
  models : gmap string Model;
  poly_features : option Poly;
  is_trained : bool
}.

(** [np.exp(-future_timestamps / (hours_ahead * 60))]. *)
Definition confidences (hours_ahead : Z) : list R :=
  (λ t : Z, exp (- IZR t / IZR (hours_ahead * 60))) <$>
    future_timestamps hours_ahead.

(** The formatting loop over
    [zip(future_timestamps, y_pred, confidences)], from position [i]. *)
Fixpoint format_points (i : nat) (ts : list Z) (y_pred cs : list R)
  : list (ForecastPoint R) :=
  match ts, y_pred, cs with
  | timestamp :: ts', pred_value :: y_pred', c :: cs' =>
    Point (time_label i timestamp) timestamp pred_value c
      :: format_points (S i) ts' y_pred' cs'
  | _, _, _ => []
  end.

(** The forecast list of one metric on the trained path. *)
Definition forecast_metric (p : predictor) (model : Model) (hours_ahead : Z)
  : result (list (ForecastPoint R)) :=
  match poly_features p with
  | None =>
    Raise (AttributeError "'NoneType' object has no attribute 'transform'")
  | Some poly =>
    match transform poly (future_timestamps hours_ahead) with
    | Raise e => Raise e
    | Ok X_future_poly =>
      match model_predict model X_future_poly with
      | Raise e => Raise e
      | Ok y_pred =>
        Ok (format_points 0 (future_timestamps hours_ahead) y_pred
              (confidences hours_ahead))
      end
    end
  end.

(** The loop of the trained path over [current_data.items()]. *)
Fixpoint predict_trained (p : predictor) (hours_ahead : Z)
    (items : list (string * R))
    (predictions : gmap string (list (ForecastPoint R)))
  : result (gmap string (list (ForecastPoint R))) :=
  match items with
  | [] => Ok predictions
  | (metric, _) :: items' =>
    match models p !! metric with
    | None => predict_trained p hours_ahead items' predictions
    | Some model =>
      match forecast_metric p model hours_ahead with
      | Raise e => Raise e
      | Ok points =>
        predict_trained p hours_ahead items'
          (<[metric := points]> predictions)
      end
    end
  end.

(** One point of [_predict_simple_trends]. *)
Definition simple_point (metric : string) (current_value trend : R)
    (hours_ahead : Z) (i : nat) : ForecastPoint R :=
  let minutes_ahead := Z.of_nat i * FORECAST_INTERVAL_MINUTES in
  let hours_fraction := (IZR minutes_ahead / 60)%R in
  let predicted_value := (current_value + trend * hours_fraction)%R in
  let noise := normal metric minutes_ahead (5 / 10 * hours_fraction)%R in
  let predicted_value := (predicted_value + noise)%R in
  let predicted_value :=
    if bool_decide (metric = "temperature")
    then clip predicted_value 10 40
    else if bool_decide
              (metric ∈ ["humidity"; "soil_moisture"; "light_intensity"])
    then clip predicted_value 0 100
    else predicted_value in
  let confidence :=
    Rmax (3 / 10) (1 - hours_fraction / IZR hours_ahead)%R in
  Point (time_label (pred i) minutes_ahead) minutes_ahead predicted_value
    confidence.

(** The body of the outer loop of [_predict_simple_trends] for one item
of [current_data]. *)
Definition simple_item (hours_ahead : Z)
    (predictions : gmap string (list (ForecastPoint R)))
    (item : string * R) : gmap string (list (ForecastPoint R)) :=
  let '(metric, current_value) := item in
  let num_predictions := (hours_ahead * 60) / FORECAST_INTERVAL_MINUTES in
  match trends !! metric with
  | None => predictions
  | Some trend =>
    <[metric := (λ k, simple_point metric current_value trend hours_ahead
                        (S k))
                <$> seq 0 (Z.to_nat num_predictions)]> predictions
  end.

(** [_predict_simple_trends]. *)
Definition _predict_simple_trends (current_data : list (string * R))
    (hours_ahead : Z) : gmap string (list (ForecastPoint R)) :=
  foldl (simple_item hours_ahead) ∅ current_data.

(** [predict_future]. *)
Definition predict_future (p : predictor) (current_data : list (string * R))
    (hours_ahead : Z) : result (gmap string (list (ForecastPoint R))) :=
  if negb (is_trained p)
  then Ok (_predict_simple_trends current_data hours_ahead)
  else predict_trained p hours_ahead current_data ∅.

(** The confidence [_predict_simple_trends] gives its [i]-th point. *)
Definition simple_confidence (hours_ahead : Z) (i : nat) : R :=
  Rmax (3 / 10)
       (1 - IZR (Z.of_nat i * FORECAST_INTERVAL_MINUTES) / 60
              / IZR hours_ahead)%R.

(** The two shapes a forecast list can have: the zip of the trained path,
or the list of the fallback. *)
Inductive forecast_shape (hours_ahead : Z) (pts : list (ForecastPoint R))
  : bool → Prop :=
  | shape_trained y_pred :
      pts = format_points 0 (future_timestamps hours_ahead) y_pred
              (confidences hours_ahead) →
      forecast_shape hours_ahead pts true
  | shape_simple metric current_value trend :
      pts = (λ k, simple_point metric current_value trend
                    hours_ahead (S k))
              <$> seq 0 (Z.to_nat
                           (hours_ahead * 60 / FORECAST_INTERVAL_MINUTES)) →
      forecast_shape hours_ahead pts false.

End Forecast.

(** ** Anomaly detection, on IEEE binary64 numbers as Python computes it *)

#[local] Set Warnings "-inexact-float".

Inductive severity : Type := medium | high.

Record AnomalyRecord : Type := Anomaly {
  metric : string;
  current_value : float;
  predicted_value : float;
  deviation : float;
  anomaly_severity : severity
}.

(** Python's two-argument [max(a, b)]: [b] when [b > a], else [a]. *)
Definition py_max (a b : float) : float :=
  if PrimFloat.ltb a b then b else a.

(** The adaptive threshold of [detect_anomalies]. *)
Definition threshold_of (metric : string) (value : float) : float :=
  if bool_decide (metric = "temperature")
  then py_max 8%float (PrimFloat.mul (PrimFloat.abs value) 0.15%float)
  else if bool_decide (metric = "light_intensity")
  then py_max 35%float (PrimFloat.mul (PrimFloat.abs value) 0.40%float)
  else py_max 30%float (PrimFloat.mul (PrimFloat.abs value) 0.40%float).

(** The body of the loop of [detect_anomalies] for one item of
    [current_data]: the record appended, if any. *)
Definition check_metric (predictions : gmap string (list (ForecastPoint float)))
    (item : string * float) : option AnomalyRecord :=
  let '(metric, value) := item in
  match predictions !! metric with
  | None | Some [] => None
  | Some (first_pred :: _) =>
    let predicted_value := TrendPredictor.value first_pred in
    let deviation := PrimFloat.abs (PrimFloat.sub value predicted_value) in
    let threshold := threshold_of metric value in
    if PrimFloat.ltb threshold deviation
    then Some (Anomaly metric value predicted_value deviation
                 (if PrimFloat.ltb (PrimFloat.mul threshold 2%float) deviation
                  then high else medium))
    else None
  end.

(** [detect_anomalies]. *)
Definition detect_anomalies (current_data : list (string * float))
    (predictions : gmap string (list (ForecastPoint float)))
  : list AnomalyRecord :=
  omap (check_metric predictions) current_data.

End TrendPredictor.

(** * machine-learning/actuator_model.py: batch inference, evaluation,
    saved models *)

Module Inference.
Import ActuatorModel.

(** The positions of the named columns; [KeyError] at the first name the
    frame lacks. *)
Fixpoint col_indices (names columns : list string) : result (list nat) :=
  match names with
  | [] => Ok []
  | name :: names' =>
    match col_index name columns with
    | None => Raise (KeyError name)
    | Some j =>
      match col_indices names' columns with
      | Raise e => Raise e
      | Ok js => Ok (j :: js)
      end
    end
  end.

(** [df[names]]: the frame of the named columns, in the order of [names];
    [KeyError] when the frame lacks one of them. *)
Definition df_select {A} (names : list string) (df : DataFrame A)
  : result (DataFrame A) :=
  match col_indices names (df_columns df) with
  | Ok js =>
    Ok (Frame names ((λ r : list A, omap (λ j, r !! j) js) <$> df_rows df))
  | Raise e => Raise e
  end.

(** One row of a frame as the dictionary of its cells. *)
Definition row_dict {A} (columns : list string) (row : list A)
  : gmap string A :=
  list_to_map (zip columns row).

(** What [joblib.dump] is given by [save_models] and what [joblib.load]
    hands to [load_models]. *)
Record snapshot (Model : Type) : Type := Snapshot {
  s_models : gmap string Model;
  s_feature_names : list string;
  s_target_names : list string
}.
Arguments Snapshot {Model} s_models s_feature_names s_target_names.
Arguments s_models {Model} _.
Arguments s_feature_names {Model} _.
Arguments s_target_names {Model} _.

(** One scenario of [evaluate_scenarios] and the entry appended for it. *)
Record scenario (V : Type) : Type := Scenario {
  sc_name : string;
  sc_input : gmap string V;
  sc_expected : gmap string bool
}.
Arguments Scenario {V} sc_name sc_input sc_expected.
Arguments sc_name {V} _.
Arguments sc_input {V} _.
Arguments sc_expected {V} _.

Record scenario_result (V : Type) : Type := ScenarioResult {
  r_name : string;
  r_input : gmap string V;
  r_predicted : gmap string bool;
  r_expected : gmap string bool;
  r_correct : bool
}.
Arguments ScenarioResult {V} r_name r_input r_predicted r_expected r_correct.
Arguments r_correct {V} _.
Arguments r_predicted {V} _.

(** The dictionary [evaluate_scenarios] returns. *)
Record evaluation (V : Type) : Type := Evaluation {
  ev_total : nat;
  ev_correct : nat;
  ev_scenarios : list (scenario_result V);
  ev_accuracy : Q
}.
Arguments Evaluation {V} ev_total ev_correct ev_scenarios ev_accuracy.
Arguments ev_total {V} _.
Arguments ev_correct {V} _.
Arguments ev_scenarios {V} _.
Arguments ev_accuracy {V} _.

(** What [evaluate_scenarios] can raise: an exception of [predict] or of a
    dictionary lookup, or the division by a total of zero. *)
Inductive eval_error : Type :=
  | Raised (e : exn)
  | ZeroDivisionError.

(** [all(predictions[act] == expected[act] for act in names)], which stops
    at the first disagreement and raises [KeyError] at a missing key. *)
Fixpoint all_correct (predictions expected : gmap string bool)
    (names : list string) : result bool :=
  match names with
  | [] => Ok true
  | act :: names' =>
    match predictions !! act with
    | None => Raise (KeyError act)
    | Some predicted =>
      match expected !! act with
      | None => Raise (KeyError act)
      | Some wanted =>
        if bool_decide (predicted = wanted)
        then all_correct predictions expected names'
        else Ok false
      end
    end
  end.

Section Inference.

Context {V Model : Type}.
Variable predict_row : Model → list V → bool.

(** [batch_predict].  The column selection is evaluated inside the loop
    over the models, so not at all when there is no model. *)
Definition batch_predict (c : controller) (sensor_data_list : DataFrame V)
  : result (gmap string (list bool)) :=
  if negb (is_trained c)
  then Raise (ValueError "Models must be trained before prediction")
  else if bool_decide (size (models c) = 0%nat) then Ok ∅
  else match df_select (feature_names c) sensor_data_list with
  | Raise e => Raise e
  | Ok X => Ok ((λ model : Model, predict_row model <$> df_rows X)
                  <$> models c)
  end.

(** The contents [save_models] writes. *)
Definition save_models (c : controller) : snapshot Model :=
  Snapshot (models c) (feature_names c) (target_names c).

(** [load_models]; [file] is [None] when the path does not exist, else
    what [joblib.load] returns. *)
Definition load_models (c : controller) (file : option (snapshot Model))
  : controller :=
  match file with
  | None => c
  | Some model_data =>
    Controller (s_models model_data) (s_feature_names model_data)
      (s_target_names model_data) true
  end.

(** [__init__]: the fresh controller, loaded from the model file when
    there is one. *)
Definition new_controller (file : option (snapshot Model)) : controller :=
  load_models init file.

(** The loop of [evaluate_scenarios]. *)
Fixpoint evaluate_loop (c : controller) (scenarios : list (scenario V))
    (correct : nat) (done : list (scenario_result V))
  : result (nat * list (scenario_result V)) :=
  match scenarios with
  | [] => Ok (correct, done)
  | sc :: scenarios' =>
    match predict predict_row c (sc_input sc) with
    | Raise e => Raise e
    | Ok predictions =>
      match all_correct predictions (sc_expected sc) (target_names c) with
      | Raise e => Raise e
      | Ok ok =>
        evaluate_loop c scenarios'
          (if ok then S correct else correct)
          (done ++ [ScenarioResult (sc_name sc) (sc_input sc) predictions
                      (sc_expected sc) ok])
      end
    end
  end.

(** [evaluate_scenarios]. *)
Definition evaluate_scenarios (c : controller) (scenarios : list (scenario V))
  : eval_error + evaluation V :=
  if negb (is_trained c)
  then inl (Raised (ValueError "Models must be trained before evaluation"))
  else match evaluate_loop c scenarios 0 [] with
  | Raise e => inl (Raised e)
  | Ok (correct, done) =>
    let total := length scenarios in
    if bool_decide (total = 0%nat) then inl ZeroDivisionError
    else inr (Evaluation total correct done
                (Z.of_nat correct # Pos.of_nat total))
  end.

End Inference.

End Inference.

(** * machine-learning/trend_predictor.py: training, retraining, saved
    models *)

Module Retraining.
Import TrendPredictor.

(** The [metrics] list of [train]. *)
Definition METRICS : list string :=
  ["temperature"; "humidity"; "soil_moisture"; "light_intensity"].

(** [d[key] = x] on a dictionary kept in insertion order: an existing key
    keeps its place. *)
Fixpoint dict_set {X} (key : string) (x : X) (d : list (string * X))
  : list (string * X) :=
  match d with
  | [] => [(key, x)]
  | (k, y) :: d' =>
    if bool_decide (k = key) then (k, x) :: d'
    else (k, y) :: dict_set key x d'
  end.

Fixpoint dict_get {X} (key : string) (d : list (string * X)) : option X :=
  match d with
  | [] => None
  | (k, y) :: d' => if bool_decide (k = key) then Some y else dict_get key d'
  end.

Section Retraining.

(** [A] is the type of the numbers in buffers and frames, [Model] a
    fitted [Ridge], [Poly] a [PolynomialFeatures] object, [XP] the array
    [fit_transform] returns and [Score] an R² score. *)
Context {A Model Poly XP Score : Type}.

(** The cell holding the integer [i] of [range(len(df))]. *)
Variable of_nat : nat → A.

(** [PolynomialFeatures(degree=2, include_bias=False)], not yet fitted. *)
Variable new_poly : Poly.

(** [poly.fit_transform(X)]: the object once fitted and the expanded
    array, or the exception raised. *)
Variable fit_transform : Poly → list (list A) → result (Poly * XP).

(** [Ridge(alpha=1.0).fit(X_poly, y)]. *)
Variable ridge_fit : XP → list A → result Model.

(** [model.score(X_poly, y)]. *)
Variable score : Model → XP → list A → result Score.

(** [pd.DataFrame(data_dict)]. *)
Variable DataFrame_of : list (string * list A) → result (DataFrame A).

(** The predictor [__init__] builds when there is no model file. *)
Definition fresh : @predictor Model Poly := Predictor ∅ None false.

(** [historical_data['timestamp'] = range(len(historical_data))]. *)
Definition add_timestamp (df : DataFrame A) : DataFrame A :=
  Frame (df_columns df ++ ["timestamp"])
        (imap (λ i row, row ++ [of_nat i]) (df_rows df)).

(** The loop of [train] over the metrics.  It returns the models and the
    feature object as they are when the loop ends or an exception leaves
    it. *)
Fixpoint train_loop (df : DataFrame A) (metrics : list string)
    (models : gmap string Model) (poly : Poly) (scores : gmap string Score)
  : gmap string Model * Poly * result (gmap string Score) :=
  match metrics with
  | [] => (models, poly, Ok scores)
  | metric :: metrics' =>
    if bool_decide (metric ∈ df_columns df) then
      match Inference.df_select ["timestamp"] df with
      | Raise e => (models, poly, Raise e)
      | Ok X =>
        match df_col metric df with
        | Raise e => (models, poly, Raise e)
        | Ok y =>
          match fit_transform poly (df_rows X) with
          | Raise e => (models, poly, Raise e)
          | Ok (poly', X_poly) =>
            match ridge_fit X_poly y with
            | Raise e => (models, poly', Raise e)
            | Ok model =>
              match score model X_poly y with
              | Raise e => (models, poly', Raise e)
              | Ok s =>
                train_loop df metrics' (<[metric := model]> models) poly'
                  (<[metric := s]> scores)
              end
            end
          end
        end
      end
    else train_loop df metrics' models poly scores
  end.

(** [train]: the predictor afterwards, and the scores or the exception. *)
Definition train (p : @predictor Model Poly) (historical_data : DataFrame A)
  : @predictor Model Poly * result (gmap string Score) :=
  let historical_data :=
    if bool_decide ("timestamp" ∈ df_columns historical_data)
    then historical_data else add_timestamp historical_data in
  match train_loop historical_data METRICS (models p) new_poly ∅ with
  | (models', poly', Ok scores) =>
    (Predictor models' (Some poly') true, Ok scores)
  | (models', poly', Raise e) =>
    (Predictor models' (Some poly') (is_trained p), Raise e)
  end.

(** The body of the loop of [retrain_online] that fills [data_dict]. *)
Definition retrain_item (b : buffers A A)
    (data_dict : list (string * list A)) (metric : string)
  : list (string * list A) :=
  match history_buffers b !! metric with
  | None => data_dict
  | Some buffer =>
    if bool_decide (0 < length buffer)%nat then
      let timestamps := buffer.*1 in
      let values := buffer.*2 in
      let data_dict :=
        if bool_decide
             (length (default [] (dict_get "timestamp" data_dict)) = 0%nat)
        then dict_set "timestamp" timestamps data_dict
        else data_dict in
      dict_set metric values data_dict
    else data_dict
  end.

(** [retrain_online]; [order] lists the keys of [history_buffers] in the
    order of the dictionary. *)
Definition retrain_online (order : list string) (p : @predictor Model Poly)
    (b : buffers A A) : @predictor Model Poly * result unit :=
  if negb (bool_decide
             (map_Exists (λ _ buf, (10 < length buf)%nat)
                (history_buffers b)))
  then (p, Ok ())
  else
    let data_dict := foldl (retrain_item b) [("timestamp", [])] order in
    match DataFrame_of data_dict with
    | Raise e => (p, Raise e)
    | Ok historical_data =>
      match train p historical_data with
      | (p', Ok _) => (p', Ok ())
      | (p', Raise e) => (p', Raise e)
      end
    end.

(** What [save_models] hands to [joblib.dump] and [joblib.load] hands to
    [load_models]; the history is read with [.get], so it may be absent. *)
Record model_file : Type := ModelFile {
  f_models : gmap string Model;
  f_poly_features : option Poly;
  f_history_buffers : option (gmap string (list (A * A)))
}.

(** [save_models]. *)
Definition save_models (p : @predictor Model Poly) (b : buffers A A)
  : model_file :=
  ModelFile (models p) (poly_features p) (Some (history_buffers b)).

(** [load_models]; [file] is [None] when the path does not exist. *)
Definition load_models (p : @predictor Model Poly) (b : buffers A A)
    (file : option model_file) : @predictor Model Poly * buffers A A :=
  match file with
  | None => (p, b)
  | Some model_data =>
    (Predictor (f_models model_data) (f_poly_features model_data) true,
     Buffers (default (history_buffers b) (f_history_buffers model_data))
             (max_buffer_size b))
  end.

End Retraining.

End Retraining.

(** * Stand-ins for the library calls of the trend predictor *)

Module TrendReference.

(** The cell holding an integer. *)
Definition cell_of_nat (n : nat) : Q := inject_Z (Z.of_nat n).

(** [fit_transform] of degree two on rows of one column. *)
Definition expand (poly : unit) (X : list (list Q))
  : result (unit * list (list Q)) :=
  Ok (tt, (λ row, row ++ ((λ t, t * t)%Q <$> row)) <$> X).

(** A fitted model: the mean of the targets. *)
Definition mean_fit (X_poly : list (list Q)) (y : list Q) : result Q :=
  if bool_decide (y = [])
  then Raise (ValueError "Found array with 0 sample(s)")
  else Ok (foldr Qplus 0%Q y / inject_Z (Z.of_nat (length y)))%Q.

Definition zero_score (model : Q) (X_poly : list (list Q)) (y : list Q)
  : result Q := Ok 0%Q.

(** A frame from columns of equal length. *)
Definition frame_of_dict (d : list (string * list Q))
  : result (DataFrame Q) :=
  match d with
  | [] => Ok (Frame [] [])
  | (_, first) :: _ =>
    if bool_decide (Forall (λ kv : string * list Q,
                              length kv.2 = length first) d)
    then Ok (Frame d.*1
               ((λ i, omap (λ kv : string * list Q, kv.2 !! i) d)
                  <$> seq 0 (length first)))
    else Raise (ValueError "All arrays must be of the same length")
  end.

End TrendReference.

(** * Scenarios used as concrete inputs below *)

Module Scenarios.

(** Ten pump commands, one per second, and an eleventh a second later. *)
Definition ten_pump_commands : list Safety.call :=
  (λ k : nat, Safety.Call "pump" "ON" (Safety.PyNum 5%Q)
                (Z.of_nat k * 1000000) (Z.of_nat k * 1000000 + 1))
    <$> seq 1 10.

Definition eleventh_pump_command : Safety.call :=
  Safety.Call "pump" "ON" (Safety.PyNum 5%Q) 11000000 11000001.

(** A controller holding models from an earlier training run. *)
Definition trained_before : ActuatorModel.controller :=
  ActuatorModel.Controller
    (<["fan" := 0%Q]> (<["pump" := 0%Q]> (<["light" := 0%Q]> ∅)))
    ActuatorModel.FEATURE_NAMES ActuatorModel.TARGET_ACTUATORS true.

(** A table of two samples, both labelled ON for every actuator. *)
Definition two_samples : DataFrame Q :=
  Frame ActuatorModel.FEATURE_NAMES
    [[36%Q; 40%Q; 45%Q; 85%Q]; [22%Q; 65%Q; 50%Q; 15%Q]].

Definition two_labels : DataFrame bool :=
  Frame ActuatorModel.TARGET_ACTUATORS
    [[true; true; true]; [true; true; true]].

(** A table of one sample. *)
Definition one_sample : DataFrame Q :=
  Frame ActuatorModel.FEATURE_NAMES [[36%Q; 40%Q; 45%Q; 85%Q]].

Definition one_label : DataFrame bool :=
  Frame ActuatorModel.TARGET_ACTUATORS [[true; true; true]].

(** A reading with the four sensor channels. *)
Definition hot_reading : gmap string Q :=
  <["temperature" := 36%Q]> (<["humidity" := 40%Q]>
    (<["soil_moisture" := 45%Q]> (<["light_intensity" := 85%Q]> ∅))).

(** A controller created over a model file that holds no model. *)
Definition loaded_without_models : ActuatorModel.controller (Model := Q) :=
  Inference.new_controller
    (Some (Inference.Snapshot ∅ ActuatorModel.FEATURE_NAMES
             ActuatorModel.TARGET_ACTUATORS)).

(** A trend predictor trained on temperature alone, a one-hour forecast of
    it, and the clock label and noise the examples use. *)
Definition label (i : nat) (minutes : Z) : string := "12:00".

Definition no_noise (metric : string) (minutes : Z) (scale : R) : R := 0%R.

Definition temperature_predictor
  : TrendPredictor.predictor (Model := Reference.ridge) (Poly := unit) :=
  TrendPredictor.Predictor
    (<["temperature" := Reference.Ridge 24 [(1 / 10)%R; 0%R]]> ∅)
    (Some tt) true.

Definition first_point : TrendPredictor.ForecastPoint R :=
  TrendPredictor.Point "12:00" 30
    (1 / 10 * IZR 30 + (0 * (IZR 30 * IZR 30) + 24))%R
    (exp (- IZR 30 / IZR (1 * 60))).

Definition second_point : TrendPredictor.ForecastPoint R :=
  TrendPredictor.Point "12:00" 60
    (1 / 10 * IZR 60 + (0 * (IZR 60 * IZR 60) + 24))%R
    (exp (- IZR 60 / IZR (1 * 60))).

End Scenarios.

(** * Properties *)

Lemma Qlt_bool_iff (x y : Q) : Qlt_bool x y = true ↔ (x < y)%Q.
Proof.
  unfold Qlt_bool. rewrite negb_true_iff. split.
  - intros H. apply Qnot_le_lt. intros Hle.
    apply Qle_bool_iff in Hle. congruence.
  - intros H. destruct (Qle_bool y x) eqn:E; [|reflexivity].
    apply Qle_bool_iff in E. exfalso. exact (Qlt_not_le _ _ H E).
Qed.

Lemma Qlt_bool_false (x y : Q) : Qlt_bool x y = false ↔ (y <= x)%Q.
Proof. unfold Qlt_bool. rewrite negb_false_iff. apply Qle_bool_iff. Qed.

(** ** The safety manager *)

Module SafetyFacts.
Import Safety Scenarios.

Lemma history_of_insert_eq (h : history) a l :
  history_of (<[a := l]> h) a = l.
Proof. unfold history_of. by rewrite lookup_insert_eq. Qed.

Lemma history_of_insert_ne (h : history) a b l :
  a ≠ b → history_of (<[a := l]> h) b = history_of h b.
Proof. intros Hne. unfold history_of. by rewrite lookup_insert_ne. Qed.

Lemma recent_app now l1 l2 :
  recent now (l1 ++ l2) = recent now l1 ++ recent now l2.
Proof. apply filter_app. Qed.

Lemma recent_sublist now l : recent now l `sublist_of` l.
Proof. apply sublist_filter. Qed.

(** Pruning at an earlier clock reading removes nothing a later reading
    still counts. *)
Lemma recent_recent t now l :
  t ≤ now → recent now (recent t l) = recent now l.
Proof.
  intros Hle. unfold recent. induction l as [|x l IH]; [done|].
  rewrite !filter_cons.
  destruct (decide (t - one_minute < x)) as [Hx|Hx].
  - rewrite filter_cons. destruct (decide (now - one_minute < x));
      by rewrite IH.
  - destruct (decide (now - one_minute < x)); [lia|done].
Qed.

(** The caps table and the whitelist name the same actuators. *)
Lemma whitelist_cap actuator :
  actuator ∈ ["pump"; "fan"; "grow_light"] →
  ∃ cap, MAX_DURATIONS !! actuator = Some cap.
Proof.
  intros H. unfold MAX_DURATIONS.
  repeat (apply elem_of_cons in H as [->|H]); [eauto..|].
  by apply elem_of_nil in H.
Qed.

Lemma validate_command_outcome h t_check t_record actuator action duration :
  outcome h t_check t_record actuator
    (validate_command h t_check t_record actuator action duration).1.1
    (validate_command h t_check t_record actuator action duration).1.2.
Proof.
  unfold validate_command.
  destruct (negb (bool_decide (actuator ∈ _))); [constructor|].
  destruct (negb (bool_decide (action ∈ _))); [constructor|].
  destruct duration as [d|]; [|constructor].
  destruct (Qlt_bool d 0); [constructor|].
  destruct (cap_warning actuator d); [|constructor].
  unfold _check_rate_limit. case_bool_decide as Hlen; simpl.
  - by constructor.
  - unfold _record_command.
    rewrite history_of_insert_eq, insert_insert_eq.
    constructor. lia.
Qed.

(** The effect of one call on what a later clock reading still counts for
    an actuator. *)
Lemma step_recent now h c actuator :
  c_check c ≤ now →
  recent now (history_of (step h c).1.2 actuator) =
    recent now (history_of h actuator) ++
    recent now (if (step h c).1.1 && bool_decide (c_actuator c = actuator)
                then [c_record c] else []).
Proof.
  intros Hle. unfold step.
  destruct (validate_command_outcome h (c_check c) (c_record c)
              (c_actuator c) (c_action c) (c_duration c)) as [|Hlen|Hlen];
    simpl.
  - by rewrite app_nil_r.
  - rewrite app_nil_r.
    destruct (decide (c_actuator c = actuator)) as [<-|Hne].
    + by rewrite history_of_insert_eq, recent_recent.
    + by rewrite history_of_insert_ne.
  - case_bool_decide as Hact.
    + subst actuator.
      by rewrite history_of_insert_eq, recent_app, recent_recent.
    + rewrite history_of_insert_ne by done. by rewrite app_nil_r.
Qed.

Lemma run_cons h c cs : run h (c :: cs) = run (step h c).1.2 cs.
Proof. done. Qed.

(** After any sequence of calls none of which read the clock later than
    [now], the times [now] still counts for an actuator are those it counted
    at the start followed by those of the accepted calls: rejected calls
    add nothing. *)
Lemma run_recent now actuator cs : ∀ h,
  Forall (λ c, c_check c ≤ now) cs →
  recent now (history_of (run h cs) actuator) =
    recent now (history_of h actuator) ++
    recent now (accepted_times actuator h cs).
Proof.
  induction cs as [|c cs IH]; intros h Hcs.
  - simpl. by rewrite app_nil_r.
  - inversion Hcs as [|? ? Hc Hcs']; subst.
    rewrite run_cons, IH by done.
    rewrite (step_recent now h c actuator Hc).
    simpl. destruct (step h c) as [[ok h'] lg] eqn:E. simpl.
    by rewrite recent_app, app_assoc.
Qed.

(** A call that passes every check is accepted, whatever its duration: the
    cap comparison only chooses the log. *)
Lemma validate_command_accepts h t_check t_record actuator action d :
  actuator ∈ ["pump"; "fan"; "grow_light"] →
  action ∈ ["ON"; "OFF"] →
  (0 <= d)%Q →
  (length (recent t_check (history_of h actuator)) < MAX_COMMANDS_PER_MINUTE)%nat →
  ∃ warn,
    cap_warning actuator d = Some warn ∧
    validate_command h t_check t_record actuator action (PyNum d) =
      (true,
       <[actuator := recent t_check (history_of h actuator) ++ [t_record]]> h,
       warn).
Proof.
  intros Hact Haction Hd Hlen.
  destruct (whitelist_cap actuator Hact) as [cap Hcap].
  assert (∃ warn, cap_warning actuator d = Some warn) as [warn Hwarn].
  { unfold cap_warning. rewrite Hcap. destruct (Qlt_bool _ _); eauto. }
  exists warn. split; [done|].
  unfold validate_command.
  rewrite (bool_decide_eq_true_2 _ Hact), (bool_decide_eq_true_2 _ Haction).
  simpl. apply Qlt_bool_false in Hd. rewrite Hd, Hwarn.
  unfold _check_rate_limit.
  rewrite bool_decide_eq_false_2 by lia. simpl.
  unfold _record_command.
  by rewrite history_of_insert_eq, insert_insert_eq, app_nil_r.
Qed.

(** Over the cap the log is the warning alone. *)
Lemma over_cap_accepted h t_check t_record actuator cap action d :
  (actuator, cap) ∈
    [("pump", 1800%Q); ("fan", 3600%Q); ("grow_light", 14400%Q)] →
  action ∈ ["ON"; "OFF"] →
  (cap < d)%Q →
  (length (recent t_check (history_of h actuator)) < MAX_COMMANDS_PER_MINUTE)%nat →
  validate_command h t_check t_record actuator action (PyNum d) =
    (true,
     <[actuator := recent t_check (history_of h actuator) ++ [t_record]]> h,
     [DurationExceedsMax actuator cap]).
Proof.
  intros Hcap Haction Hd Hlen.
  assert (MAX_DURATIONS !! actuator = Some cap ∧ (0 <= cap)%Q
          ∧ actuator ∈ ["pump"; "fan"; "grow_light"]) as (Hm & H0 & Hact).
  { repeat (apply elem_of_cons in Hcap as [[= -> ->]|Hcap]);
      [by repeat split; [|repeat constructor]..|by apply elem_of_nil in Hcap]. }
  destruct (validate_command_accepts h t_check t_record actuator action d)
    as (warn & Hwarn & ->); [done|done| |done|].
  { apply Qlt_le_weak. by eapply Qle_lt_trans. }
  unfold cap_warning in Hwarn. rewrite Hm in Hwarn. simpl in Hwarn.
  apply Qlt_bool_iff in Hd. rewrite Hd in Hwarn. by injection Hwarn as <-.
Qed.

(** C2. A command for a whitelisted actuator, with action ON or OFF, a
    duration above that actuator's cap (pump 1800, fan 3600, grow_light
    14400) and fewer than ten commands left in the window is accepted:
    [validate_command] returns [True], records the command, and the only log
    record is the warning about the cap.  The duration is an input the call
    never rewrites; the handlers forward it as it was received. *)
Theorem validate_command_over_cap h t_check t_record actuator cap action d :
  (actuator, cap) ∈
    [("pump", 1800%Q); ("fan", 3600%Q); ("grow_light", 14400%Q)] →
  action ∈ ["ON"; "OFF"] →
  (cap < d)%Q →
  (length (recent t_check (history_of h actuator)) < MAX_COMMANDS_PER_MINUTE)%nat →
  validate_command h t_check t_record actuator action (PyNum d) =
    (true,
     <[actuator := recent t_check (history_of h actuator) ++ [t_record]]> h,
     [DurationExceedsMax actuator cap])
  ∧ level_of (DurationExceedsMax actuator cap) = WARNING.
Proof.
  intros Hcap Haction Hd Hlen. split; [|done].
  by apply over_cap_accepted.
Qed.

Lemma validate_command_over_cap_witness :
  validate_command ∅ 0 1 "pump" "ON" (PyNum 2000%Q) =
    (true, <["pump" := recent 0 (history_of ∅ "pump") ++ [1]]> ∅,
     [DurationExceedsMax "pump" 1800%Q])
  ∧ level_of (DurationExceedsMax "pump" 1800%Q) = WARNING.
Proof.
  apply (validate_command_over_cap ∅ 0 1 "pump" 1800%Q "ON" 2000%Q).
  - apply list_elem_of_here.
  - apply list_elem_of_here.
  - reflexivity.
  - vm_compute. lia.
Defined.

(** C3. The sliding window.  (1) When the calls made so far accepted ten
    or more commands for an actuator at times the next call's clock reading
    still counts (less than 60 seconds before it), and no earlier call read a
    later clock, the next call for that actuator is rejected.  (2) An
    accepted call found fewer than ten times in the window, and (3) leaves
    the window followed by its own time as the actuator's list. *)
Theorem rate_limit_window :
  (∀ h cs c,
     Forall (λ c', c_check c' ≤ c_check c) cs →
     (MAX_COMMANDS_PER_MINUTE ≤
        length (recent (c_check c) (accepted_times (c_actuator c) h cs)))%nat →
     (step (run h cs) c).1.1 = false)
  ∧ (∀ h t_check t_record actuator action duration,
       (validate_command h t_check t_record actuator action duration).1.1
         = true →
       (length (recent t_check (history_of h actuator)) < 10)%nat
       ∧ history_of
           (validate_command h t_check t_record actuator action duration).1.2
           actuator
         = recent t_check (history_of h actuator) ++ [t_record]).
Proof.
  split.
  - intros h cs c Hcs Hten.
    pose proof (run_recent (c_check c) (c_actuator c) cs h Hcs) as Hrun.
    unfold step.
    destruct (validate_command_outcome (run h cs) (c_check c) (c_record c)
                (c_actuator c) (c_action c) (c_duration c)) as [|Hlen|Hlen];
      [done|done|].
    rewrite Hrun, length_app in Hlen. lia.
  - intros h t_check t_record actuator action duration Hok.
    destruct (validate_command_outcome h t_check t_record actuator action
                duration) as [|Hlen|Hlen]; [done|done|].
    split; [done|]. by rewrite history_of_insert_eq.
Qed.

Lemma rate_limit_window_witness :
  (step (run ∅ ten_pump_commands) eleventh_pump_command).1.1 = false.
Proof.
  apply (proj1 rate_limit_window ∅ ten_pump_commands eleventh_pump_command).
  - unfold ten_pump_commands, eleventh_pump_command. simpl.
    repeat constructor; simpl; lia.
  - vm_compute. lia.
Defined.

(** C10. A rejected call appends nothing: the history it leaves is the
    one it found, or the one it found with the actuator's list pruned to the
    window (1).  Only an accepted call appends, and it appends its own time
    to its own actuator's list (2).  Hence over any sequence of calls the
    times a later clock reading counts are those of the accepted calls
    alone (3). *)
Theorem rejected_command_not_recorded :
  (∀ h t_check t_record actuator action duration h',
     (validate_command h t_check t_record actuator action duration).1
       = (false, h') →
     (h' = h ∨ h' = <[actuator := recent t_check (history_of h actuator)]> h)
     ∧ ∀ a, history_of h' a `sublist_of` history_of h a)
  ∧ (∀ h t_check t_record actuator action duration a t,
       t ∈ history_of
             (validate_command h t_check t_record actuator action duration).1.2
             a →
       t ∉ history_of h a →
       (validate_command h t_check t_record actuator action duration).1.1
         = true ∧ a = actuator ∧ t = t_record)
  ∧ (∀ now actuator h cs,
       Forall (λ c, c_check c ≤ now) cs →
       recent now (history_of (run h cs) actuator) =
         recent now (history_of h actuator) ++
         recent now (accepted_times actuator h cs)).
Proof.
  split; [|split].
  - intros h t_check t_record actuator action duration h' Heq.
    pose proof (validate_command_outcome h t_check t_record actuator action
                  duration) as Hout.
    destruct (validate_command _ _ _ _ _ _) as [[ok h''] lg].
    simpl in Heq, Hout. injection Heq as -> ->.
    inversion Hout as [|Hlen|]; subst.
    + split; [by left|done].
    + split; [by right|]. intros a.
      destruct (decide (actuator = a)) as [->|Hne].
      * rewrite history_of_insert_eq. apply recent_sublist.
      * by rewrite history_of_insert_ne.
  - intros h t_check t_record actuator action duration a t Hin Hnot.
    destruct (validate_command_outcome h t_check t_record actuator action
                duration) as [|Hlen|Hlen]; simpl in *.
    + done.
    + destruct (decide (actuator = a)) as [->|Hne].
      * rewrite history_of_insert_eq in Hin.
        apply list_elem_of_filter in Hin as [_ Hin]. done.
      * by rewrite history_of_insert_ne in Hin.
    + destruct (decide (actuator = a)) as [->|Hne].
      * rewrite history_of_insert_eq in Hin.
        apply elem_of_app in Hin as [Hin|Hin].
        -- apply list_elem_of_filter in Hin as [_ Hin]. done.
        -- apply list_elem_of_singleton in Hin. done.
      * by rewrite history_of_insert_ne in Hin.
  - intros now actuator h cs Hcs. by apply run_recent.
Qed.

Lemma rejected_command_not_recorded_witness :
  (<["pump" := [5]]> ∅ : history) = <["pump" := [5]]> ∅
  ∨ (<["pump" := [5]]> ∅ : history) =
      <["heater" := recent 7 (history_of (<["pump" := [5]]> ∅) "heater")]>
        (<["pump" := [5]]> ∅).
Proof.
  apply (proj1 rejected_command_not_recorded (<["pump" := [5]]> ∅) 7 8
           "heater" "ON" (PyNum 1%Q) (<["pump" := [5]]> ∅)).
  reflexivity.
Defined.

End SafetyFacts.

(** ** The command handlers *)

Module MainFacts.
Import Safety ControlLogic Main SafetyFacts.

(** A pump command over the cap starts the pump with the duration as it
    was received. *)
Lemma handle_pump_command_over_cap s k p d :
  upper (p_action p) = "ON" →
  p_duration p = PyNum d →
  (1800 < d)%Q →
  (length (recent (t_check k) (history_of (safety_manager s) "pump")) < 10)%nat →
  control_logic (handle_pump_command s k p) !! "pump"
    = Some (Timer (Some (t_activate k)) d).
Proof.
  intros Hon Hd Hcap Hlen. unfold handle_pump_command.
  rewrite Hon, Hd.
  rewrite (over_cap_accepted (safety_manager s) (t_check k)
              (t_record k) "pump" 1800%Q "ON" d);
    [|apply list_elem_of_here|apply list_elem_of_here|done|done].
  simpl. unfold activate_pump. by rewrite lookup_insert_eq.
Qed.

(** The same for the fan. *)
Lemma handle_fan_command_over_cap s k p d :
  upper (p_action p) = "ON" →
  p_duration p = PyNum d →
  (3600 < d)%Q →
  (length (recent (t_check k) (history_of (safety_manager s) "fan")) < 10)%nat →
  control_logic (handle_fan_command s k p) !! "fan"
    = Some (Timer (Some (t_activate k)) d).
Proof.
  intros Hon Hd Hcap Hlen. unfold handle_fan_command.
  rewrite Hon, Hd.
  rewrite (over_cap_accepted (safety_manager s) (t_check k)
              (t_record k) "fan" 3600%Q "ON" d);
    [|apply list_elem_of_further, list_elem_of_here
     |apply list_elem_of_here|done|done].
  simpl. unfold activate_fan. by rewrite lookup_insert_eq.
Qed.

(** The same for the grow light, when the temperature interlock lets the
    command through. *)
Lemma handle_light_command_over_cap s k p d :
  upper (p_action p) = "ON" →
  p_duration p = PyNum d →
  (14400 < d)%Q →
  too_hot s = Some false →
  (length (recent (t_check k) (history_of (safety_manager s) "grow_light"))
     < 10)%nat →
  control_logic (handle_light_command s k p) !! "grow_light"
    = Some (Timer (Some (t_activate k)) d).
Proof.
  intros Hon Hd Hcap Htemp Hlen. unfold handle_light_command.
  rewrite Hon, Hd.
  rewrite (over_cap_accepted (safety_manager s) (t_check k)
              (t_record k) "grow_light" 14400%Q "ON" d);
    [|do 2 apply list_elem_of_further; apply list_elem_of_here
     |apply list_elem_of_here|done|done].
  simpl. unfold too_hot in *. simpl. rewrite Htemp.
  simpl. unfold activate_light. by rewrite lookup_insert_eq.
Qed.

Example pump_runs_two_hours :
  control_logic
    (handle_pump_command (Service ∅ init ∅ None) (Clock 0 1 5%Q 5%Q)
       (Payload "on" (PyNum 7200%Q))) !! "pump"
  = Some (Timer (Some 5%Q) 7200%Q).
Proof. vm_compute. reflexivity. Qed.

End MainFacts.

(** ** The actuation state machine *)

Module ControlLogicFacts.
Import ControlLogic.

Lemma get_status_off t now actuator :
  t !! actuator = Some off → get_status t now actuator = OFF.
Proof. intros H. unfold get_status. by rewrite H. Qed.

(** C9. Whatever the timers were, after [deactivate_all] the pump, the fan
    and the grow light each have their start time cleared and a duration of
    zero, and [get_status] reports each of them OFF. *)
Theorem deactivate_all_off (t : timers) (now : Q) :
  Forall (λ actuator,
            deactivate_all t !! actuator = Some (Timer None 0%Q) ∧
            get_status (deactivate_all t) now actuator = OFF)
         ["pump"; "fan"; "grow_light"].
Proof.
  assert (∀ actuator, actuator ∈ ["pump"; "fan"; "grow_light"] →
            deactivate_all t !! actuator = Some off) as Hoff.
  { intros actuator Hin.
    unfold deactivate_all, deactivate_light, deactivate_fan, deactivate_pump.
    repeat (apply elem_of_cons in Hin as [->|Hin]);
      [by simplify_map_eq..|by apply elem_of_nil in Hin]. }
  apply Forall_forall. intros actuator Hin.
  split; [|apply get_status_off]; by apply Hoff.
Qed.

(** An activation with a duration of five seconds has expired once the
    clock has advanced past it. *)
Example pump_expires :
  get_status (check_duration_expired (activate_pump init 100%Q 5%Q) 106%Q)
    106%Q "pump" = OFF
  ∧ get_status (check_duration_expired (activate_pump init 100%Q 5%Q) 104%Q)
      104%Q "pump" = ON 4%Q 1%Q.
Proof. by vm_compute. Qed.

End ControlLogicFacts.

(** ** The actuator decision engine *)

Module ActuatorModelFacts.
Import ActuatorModel.

Section LearnerFacts.

Context {V Model : Type}.
Variable train_test_split : nat → result (list nat * list nat).
Variable fit : DataFrame V → list bool → result Model.
Variable predict_row : Model → list V → bool.
Variable predict_proba_row : Model → list V → list Q.
Variable accuracy_score : list bool → list bool → Q.

(** What the loop of [train] does to the stored models: it never removes
    one, leaves the actuators it is not asked about alone, and when it
    runs to the end every actuator it was asked about has one. *)
Lemma train_loop_models X_train X_test y_train y_test names :
  ∀ accuracies (ms : gmap string Model) r ms',
    train_loop fit predict_row accuracy_score X_train X_test y_train y_test
      names accuracies ms = (r, ms') →
    (∀ a, is_Some (ms !! a) → is_Some (ms' !! a))
    ∧ (∀ a, a ∉ names → ms' !! a = ms !! a)
    ∧ (∀ accs, r = Ok accs → ∀ a, a ∈ names → is_Some (ms' !! a)).
Proof.
  induction names as [|actuator names IH]; intros accuracies ms r ms' Hloop;
    simpl in Hloop.
  - injection Hloop as <- <-. split; [done|]. split; [done|].
    intros accs _ a Ha. by apply elem_of_nil in Ha.
  - destruct (df_col actuator y_train) as [y_col|e];
      [|injection Hloop as <- <-; by repeat split].
    destruct (fit X_train y_col) as [model|e];
      [|injection Hloop as <- <-; by repeat split].
    destruct (df_col actuator y_test) as [y_true|e];
      [|injection Hloop as <- <-; by repeat split].
    apply IH in Hloop as (Hmono & Hother & Hall).
    split; [|split].
    + intros a Ha. apply Hmono.
      destruct (decide (actuator = a)) as [->|Hne];
        [by rewrite lookup_insert_eq|by rewrite lookup_insert_ne].
    + intros a Ha. apply not_elem_of_cons in Ha as [Hne Ha].
      rewrite Hother by done. by rewrite lookup_insert_ne.
    + intros accs Hr a Ha. apply elem_of_cons in Ha as [->|Ha].
      * apply Hmono. by rewrite lookup_insert_eq.
      * by eapply Hall.
Qed.

(** What [train] does to the controller.  (1) When the hold-out split
    rejects the table (or the two frames differ in length) [train] raises
    that error and the controller is left exactly as it was.  (2) Whenever
    [train] returns accuracies every target actuator has a model afterwards
    and [is_trained] is set.  (3) Whatever the outcome, the feature and
    target names are the same and no stored model has been removed. *)
Lemma train_effects (c : @controller Model) (features_df : DataFrame V)
    (targets_df : DataFrame bool) :
  (∀ e, df_len features_df = df_len targets_df →
        train_test_split (df_len features_df) = Raise e →
        train train_test_split fit predict_row accuracy_score c features_df
          targets_df = (Raise e, c))
  ∧ (df_len features_df ≠ df_len targets_df →
     ∃ e, train train_test_split fit predict_row accuracy_score c features_df
            targets_df = (Raise e, c))
  ∧ (∀ accuracies c',
       train train_test_split fit predict_row accuracy_score c features_df
         targets_df = (Ok accuracies, c') →
       is_trained c' = true
       ∧ ∀ a, a ∈ target_names c → is_Some (models c' !! a))
  ∧ (∀ r c',
       train train_test_split fit predict_row accuracy_score c features_df
         targets_df = (r, c') →
       feature_names c' = feature_names c
       ∧ target_names c' = target_names c
       ∧ (∀ a, is_Some (models c !! a) → is_Some (models c' !! a))
       ∧ (∀ a, a ∉ target_names c → models c' !! a = models c !! a)).
Proof.
  assert (∀ r c',
            train train_test_split fit predict_row accuracy_score c
              features_df targets_df = (r, c') →
            feature_names c' = feature_names c
            ∧ target_names c' = target_names c
            ∧ (∀ a, is_Some (models c !! a) → is_Some (models c' !! a))
            ∧ (∀ a, a ∉ target_names c → models c' !! a = models c !! a)
            ∧ (∀ accuracies, r = Ok accuracies →
                 is_trained c' = true
                 ∧ ∀ a, a ∈ target_names c → is_Some (models c' !! a)))
    as Hrun.
  { intros r c'. unfold train.
    case_bool_decide; [simpl|by intros [= <- <-]].
    destruct (train_test_split _) as [[train_idx test_idx]|e];
      [|by intros [= <- <-]].
    destruct (train_loop _ _ _ _ _ _ _ _ _ _) as [r' ms] eqn:Hloop.
    apply train_loop_models in Hloop as (Hmono & Hother & Hall).
    destruct r' as [accs|e]; intros [= <- <-]; simpl;
      repeat split; try done.
    by eapply Hall. }
  split; [|split; [|split]].
  - intros e Hlen Hsplit. unfold train.
    by rewrite (bool_decide_eq_true_2 _ Hlen), Hsplit.
  - intros Hlen. unfold train.
    rewrite (bool_decide_eq_false_2 _ Hlen). simpl. eauto.
  - intros accuracies c' Htrain.
    destruct (Hrun _ _ Htrain) as (_ & _ & _ & _ & Hok). by eapply Hok.
  - intros r c' Htrain.
    destruct (Hrun _ _ Htrain) as (? & ? & ? & ? & _). done.
Qed.

Lemma missing_feature_Some (c : @controller Model) (sensor_data : gmap string V) f :
  missing_feature c sensor_data = Some f →
  f ∈ feature_names c ∧ sensor_data !! f = None.
Proof.
  unfold missing_feature. intros Hhead.
  destruct (filter _ (feature_names c)) as [|f' l] eqn:Hfilter; [done|].
  injection Hhead as ->.
  assert (f ∈ filter (λ feature, sensor_data !! feature = None)
                (feature_names c)) as Hin
    by (rewrite Hfilter; apply list_elem_of_here).
  apply list_elem_of_filter in Hin. tauto.
Qed.

Lemma missing_feature_None (c : @controller Model) (sensor_data : gmap string V) :
  missing_feature c sensor_data = None →
  ∀ f, f ∈ feature_names c → is_Some (sensor_data !! f).
Proof.
  unfold missing_feature. intros Hhead f Hf.
  destruct (sensor_data !! f) as [v|] eqn:Hv; [eauto|].
  assert (f ∈ filter (λ feature, sensor_data !! feature = None)
                (feature_names c)) as Hin
    by (by apply list_elem_of_filter).
  destruct (filter _ (feature_names c)); [|done].
  by apply elem_of_nil in Hin.
Qed.

(** C6. [predict] on an untrained controller raises the untrained-model
    error, whatever the reading (1); on a trained controller and a reading
    that lacks a declared feature it raises the missing-feature error, naming
    a declared feature the reading lacks (2); on a trained controller and a
    reading with every declared feature it returns a dictionary that gives a
    boolean, the model's own prediction on the reading, for every actuator
    that has a model and for no other key (3). *)
Theorem predict_outcomes (c : @controller Model) (sensor_data : gmap string V) :
  (is_trained c = false →
   predict predict_row c sensor_data =
     Raise (ValueError "Models must be trained before prediction"))
  ∧ (is_trained c = true →
     (∃ feature, feature ∈ feature_names c ∧ sensor_data !! feature = None) →
     ∃ feature,
       feature ∈ feature_names c ∧ sensor_data !! feature = None ∧
       predict predict_row c sensor_data =
         Raise (ValueError ("Missing feature: " +:+ feature)))
  ∧ (is_trained c = true →
     (∀ feature, feature ∈ feature_names c → is_Some (sensor_data !! feature)) →
     ∃ predictions,
       predict predict_row c sensor_data = Ok predictions ∧
       ∀ actuator,
         predictions !! actuator =
           (λ model, predict_row model (input_row c sensor_data))
             <$> models c !! actuator).
Proof.
  unfold predict. split; [|split].
  - by intros ->.
  - intros -> (f & Hf & Hnone). simpl.
    destruct (missing_feature c sensor_data) as [f'|] eqn:Hmiss.
    + exists f'. apply missing_feature_Some in Hmiss. tauto.
    + destruct (missing_feature_None c sensor_data Hmiss f Hf) as [v Hv].
      congruence.
  - intros -> Hall. simpl.
    destruct (missing_feature c sensor_data) as [f'|] eqn:Hmiss.
    + apply missing_feature_Some in Hmiss as [Hf Hnone].
      destruct (Hall f' Hf) as [v Hv]. congruence.
    + eexists. split; [done|]. intros actuator. by rewrite lookup_fmap.
Qed.

(** After a training run that returned accuracies, a reading with every
    declared feature gets a decision for every target actuator. *)
Lemma predict_after_train (c c' : @controller Model) features_df targets_df accuracies
    (sensor_data : gmap string V) :
  train train_test_split fit predict_row accuracy_score c features_df
    targets_df = (Ok accuracies, c') →
  (∀ feature, feature ∈ feature_names c → is_Some (sensor_data !! feature)) →
  ∃ predictions,
    predict predict_row c' sensor_data = Ok predictions ∧
    ∀ actuator, actuator ∈ target_names c → is_Some (predictions !! actuator).
Proof.
  intros Htrain Hall.
  assert (is_trained c' = true ∧ feature_names c' = feature_names c
          ∧ ∀ a, a ∈ target_names c → is_Some (models c' !! a))
    as (Htrained & Hnames & Hmodels).
  { revert Htrain. unfold train. case_bool_decide; [simpl|done].
    destruct (train_test_split _) as [[train_idx test_idx]|e]; [|done].
    destruct (train_loop _ _ _ _ _ _ _ _ _ _) as [[accs|e] ms] eqn:Hloop;
      [|done].
    intros [= <- <-]. simpl. repeat split.
    intros a Ha. apply train_loop_models in Hloop as (_ & _ & Hcover).
    by eapply Hcover. }
  unfold predict. rewrite Htrained. simpl.
  destruct (missing_feature c' sensor_data) as [f'|] eqn:Hmiss.
  - apply missing_feature_Some in Hmiss as [Hf Hnone].
    rewrite Hnames in Hf. destruct (Hall f' Hf) as [v Hv]. congruence.
  - eexists. split; [done|]. intros actuator Ha.
    rewrite lookup_fmap. destruct (Hmodels actuator Ha) as [m ->]. by eexists.
Qed.

(** [np.argmax] returns a position of the vector. *)
Lemma argmax_from_bound l : ∀ best_i best i,
  (best_i < i)%nat →
  (argmax_from best_i best i l < i + length l)%nat.
Proof.
  induction l as [|x l IH]; intros best_i best i Hlt; simpl; [lia|].
  destruct (Qlt_bool best x).
  - specialize (IH i x (S i)). lia.
  - specialize (IH best_i best (S i)). lia.
Qed.

(** The confidence [predict_with_confidence] reports is an entry of the
    probability vector. *)
Lemma classify_confidence pred_proba b confidence :
  classify pred_proba = Some (b, confidence) → confidence ∈ pred_proba.
Proof.
  unfold classify. intros H.
  destruct (argmax pred_proba) as [pred_class|]; [simpl in H|done].
  destruct (pred_proba !! pred_class) as [q|] eqn:Hq; [simpl in H|done].
  injection H as _ <-. by eapply list_elem_of_lookup_2.
Qed.

(** On a non-empty vector [classify] does return. *)
Lemma classify_is_Some pred_proba :
  pred_proba ≠ [] → is_Some (classify pred_proba).
Proof.
  destruct pred_proba as [|x l]; [done|]. intros _.
  unfold classify. simpl.
  pose proof (argmax_from_bound l 0 x 1 ltac:(lia)) as Hlt.
  destruct (lookup_lt_is_Some_2 (x :: l) (argmax_from 0 x 1 l)) as [q Hq];
    [simpl; lia|].
  rewrite Hq. by eexists.
Qed.

(** What [predict_with_confidence] returns for an actuator is what
    [classify] made of that actuator's model. *)
Lemma predict_with_confidence_lookup (c : @controller Model)
    (sensor_data : gmap string V) out actuator b confidence :
  predict_with_confidence predict_proba_row c sensor_data = Ok out →
  out !! actuator = Some (b, confidence) →
  ∃ model,
    models c !! actuator = Some model ∧
    classify (predict_proba_row model (input_row c sensor_data))
      = Some (b, confidence).
Proof.
  unfold predict_with_confidence.
  destruct (negb (is_trained c)); [done|].
  destruct (missing_feature c sensor_data); [done|].
  case_bool_decide; [|done].
  intros [= <-]. rewrite lookup_omap, lookup_fmap.
  destruct (models c !! actuator) as [model|]; [|done].
  simpl. eauto.
Qed.

(** On a trained controller, a reading with every declared feature and
    models that give a probability for at least one class,
    [predict_with_confidence] returns, with an entry for each model. *)
Lemma predict_with_confidence_returns (c : @controller Model)
    (sensor_data : gmap string V) :
  is_trained c = true →
  (∀ feature, feature ∈ feature_names c → is_Some (sensor_data !! feature)) →
  (∀ actuator model,
     models c !! actuator = Some model →
     predict_proba_row model (input_row c sensor_data) ≠ []) →
  ∃ out,
    predict_with_confidence predict_proba_row c sensor_data = Ok out
    ∧ ∀ actuator, is_Some (out !! actuator) ↔ is_Some (models c !! actuator).
Proof.
  intros Htrained Hall Hproba. unfold predict_with_confidence.
  rewrite Htrained. simpl.
  destruct (missing_feature c sensor_data) as [f|] eqn:Hmiss.
  { apply missing_feature_Some in Hmiss as [Hf Hnone].
    destruct (Hall f Hf) as [v Hv]. congruence. }
  rewrite bool_decide_eq_true_2.
  - eexists. split; [done|]. intros actuator.
    rewrite lookup_omap, lookup_fmap.
    destruct (models c !! actuator) as [model|] eqn:Hm; simpl.
    + destruct (classify_is_Some _ (Hproba actuator model Hm)) as [r ->].
      split; by eexists.
    + split; by intros [? ?].
  - intros actuator o. rewrite lookup_fmap.
    destruct (models c !! actuator) as [model|] eqn:Hm; [simpl|done].
    intros [= <-]. by eapply classify_is_Some, Hproba.
Qed.

End LearnerFacts.

Import Reference Scenarios.

(** The hold-out split of 20% needs two rows: with fewer no row is left
    to train on. *)
Lemma holdout_split_minimum (n : nat) :
  (n < 2)%nat ↔ ∃ e, holdout_split n = Raise e.
Proof.
  unfold holdout_split. split.
  - intros Hn. rewrite bool_decide_eq_true_2; [by eexists|].
    destruct n as [|[|n]]; [done|done|lia].
  - intros [e He]. case_bool_decide as Hempty; [|done].
    destruct (decide (n < 2)%nat) as [|Hbig]; [done|].
    exfalso.
    assert ((n + 4) / 5 < n)%nat; [|lia].
    apply Nat.Div0.div_lt_upper_bound. lia.
Qed.

(** C1.  [train] has no sample count of its own to compare with: the
    minimum is the one its hold-out split enforces.  Whatever that minimum
    is, a request with fewer rows makes [train] raise the split's error
    (or, when the two frames differ in length, the length error) and
    leaves the controller exactly as it was: models, feature names, target
    names and the trained flag (1).  For the split of [TEST_SPLIT_RATIO]
    0.2 the minimum is two rows, no more and no less (2), so a request with
    fewer than two rows fails and changes nothing, whatever the classifier
    is (3). *)
Theorem train_below_minimum_unchanged :
  (∀ (V Model : Type) train_test_split fit predict_row accuracy_score
     (n_min : nat) (c : @controller Model) (features_df : DataFrame V)
     targets_df,
     (∀ n, (n < n_min)%nat → ∃ e, train_test_split n = Raise e) →
     (df_len features_df < n_min)%nat →
     ∃ e, train train_test_split fit predict_row accuracy_score c
            features_df targets_df = (Raise e, c))
  ∧ (∀ n, (n < 2)%nat ↔ ∃ e, holdout_split n = Raise e)
  ∧ (∀ (V Model : Type) fit predict_row accuracy_score
       (c : @controller Model) (features_df : DataFrame V) targets_df,
       (df_len features_df < 2)%nat →
       ∃ e, train holdout_split fit predict_row accuracy_score c
              features_df targets_df = (Raise e, c)).
Proof.
  assert (∀ (V Model : Type) train_test_split fit predict_row
            accuracy_score (n_min : nat) (c : @controller Model)
            (features_df : DataFrame V) targets_df,
            (∀ n, (n < n_min)%nat → ∃ e, train_test_split n = Raise e) →
            (df_len features_df < n_min)%nat →
            ∃ e, train train_test_split fit predict_row accuracy_score c
                   features_df targets_df = (Raise e, c)) as Hbelow.
  { intros V Model train_test_split fit predict_row accuracy_score n_min c
      features_df targets_df Hsplit Hfew.
    destruct (decide (df_len features_df = df_len targets_df)) as [Hlen|Hlen].
    - destruct (Hsplit _ Hfew) as [e He]. exists e.
      by apply (proj1 (train_effects train_test_split fit predict_row
                         accuracy_score c features_df targets_df)).
    - by apply (proj1 (proj2 (train_effects train_test_split fit predict_row
                                accuracy_score c features_df targets_df))). }
  split; [done|]. split; [apply holdout_split_minimum|].
  intros V Model fit predict_row accuracy_score c features_df targets_df Hfew.
  apply (Hbelow V Model holdout_split fit predict_row accuracy_score 2%nat);
    [|done].
  intros n Hn. by apply holdout_split_minimum.
Qed.

Lemma train_below_minimum_unchanged_witness :
  ∃ e, train holdout_split majority_fit majority_predict accuracy
         trained_before one_sample one_label = (Raise e, trained_before).
Proof.
  apply (proj2 (proj2 train_below_minimum_unchanged) Q Q majority_fit
           majority_predict accuracy trained_before one_sample one_label).
  vm_compute. lia.
Defined.

(** Two rows are enough: the request is trained on and replaces the models
    of an earlier run. *)
Example two_samples_are_trained_on :
  ∃ accuracies c',
    train holdout_split majority_fit majority_predict accuracy
      trained_before two_samples two_labels = (Ok accuracies, c')
    ∧ models c' !! "fan" = Some 1%Q
    ∧ models trained_before !! "fan" = Some 0%Q.
Proof. do 2 eexists. split; [by vm_compute|]. by vm_compute. Qed.

Lemma predict_outcomes_witness :
  predict majority_predict (init (Model := Q)) hot_reading =
    Raise (ValueError "Models must be trained before prediction").
Proof.
  apply (proj1 (predict_outcomes majority_predict init hot_reading)).
  reflexivity.
Defined.

(** The three outcomes of [predict] on concrete inputs. *)
Example predict_trained_reading :
  predict majority_predict trained_before hot_reading =
    Ok (<["fan" := false]> (<["pump" := false]> (<["light" := false]> ∅))).
Proof. by vm_compute. Qed.

Example predict_missing_humidity :
  predict majority_predict trained_before (delete "humidity" hot_reading) =
    Raise (ValueError "Missing feature: humidity").
Proof. by vm_compute. Qed.

End ActuatorModelFacts.

(** ** The trend forecast engine *)

Module TrendPredictorFacts.
Import TrendPredictor.

Section HistoryFacts.

Context {T V : Type}.
Implicit Types (b : buffers T V) (buf : list (T * V)) (x : T * V).

Lemma append_bounded_room max_size buf x :
  (length buf < max_size)%nat → append_bounded max_size buf x = buf ++ [x].
Proof.
  intros Hlt. unfold append_bounded.
  rewrite bool_decide_eq_false_2; [done|]. rewrite length_app. simpl. lia.
Qed.

Lemma append_bounded_full max_size buf x :
  (0 < max_size)%nat → length buf = max_size →
  append_bounded max_size buf x = drop 1 buf ++ [x].
Proof.
  intros Hpos Hlen. unfold append_bounded.
  rewrite bool_decide_eq_true_2 by (rewrite length_app; simpl; lia).
  destruct buf; [simpl in Hlen; lia|done].
Qed.

Lemma append_bounded_length max_size buf x :
  (length buf ≤ max_size)%nat →
  (length (append_bounded max_size buf x) ≤ max_size)%nat.
Proof.
  intros Hle. unfold append_bounded. case_bool_decide as Hlen.
  - rewrite length_drop, length_app. simpl. lia.
  - lia.
Qed.

Lemma update_one_max timestamp b item :
  max_buffer_size (update_one timestamp b item) = max_buffer_size b.
Proof.
  destruct item as [metric value]. unfold update_one.
  by destruct (history_buffers b !! metric).
Qed.

Lemma update_one_bounded timestamp b item :
  bounded b → bounded (update_one timestamp b item).
Proof.
  intros Hb metric buf. destruct item as [m value]. unfold update_one.
  destruct (history_buffers b !! m) as [old|] eqn:Hold; [simpl|apply Hb].
  destruct (decide (m = metric)) as [->|Hne].
  - rewrite lookup_insert_eq. intros [= <-].
    apply append_bounded_length. by eapply Hb.
  - rewrite lookup_insert_ne by done. apply Hb.
Qed.

Lemma update_one_dom timestamp b item :
  dom (history_buffers (update_one timestamp b item)) = dom (history_buffers b).
Proof.
  destruct item as [m value]. unfold update_one.
  destruct (history_buffers b !! m) as [old|] eqn:Hold; [simpl|done].
  rewrite dom_insert_L. apply elem_of_dom_2 in Hold.
  apply subseteq_union_1_L. by apply singleton_subseteq_l.
Qed.

Lemma update_history_invariant b timestamp data :
  max_buffer_size (update_history b timestamp data) = max_buffer_size b
  ∧ dom (history_buffers (update_history b timestamp data))
      = dom (history_buffers b)
  ∧ (bounded b → bounded (update_history b timestamp data)).
Proof.
  unfold update_history. revert b.
  induction data as [|item data IH]; intros b; simpl; [done|].
  destruct (IH (update_one timestamp b item)) as (Hmax & Hdom & Hb).
  rewrite Hmax, Hdom, update_one_max, update_one_dom.
  repeat split. intros Hbounded. by apply Hb, update_one_bounded.
Qed.

Lemma update_history_all_invariant b calls :
  max_buffer_size (update_history_all b calls) = max_buffer_size b
  ∧ dom (history_buffers (update_history_all b calls))
      = dom (history_buffers b)
  ∧ (bounded b → bounded (update_history_all b calls)).
Proof.
  unfold update_history_all. revert b.
  induction calls as [|call calls IH]; intros b; simpl; [done|].
  destruct (IH (update_history b call.1 call.2)) as (Hmax & Hdom & Hb).
  destruct (update_history_invariant b call.1 call.2) as (Hmax' & Hdom' & Hb').
  rewrite Hmax, Hdom, Hmax', Hdom'. repeat split.
  intros Hbounded. by apply Hb, Hb'.
Qed.

(** A metric the reading does not carry keeps its buffer. *)
Lemma update_history_absent b timestamp data metric :
  metric ∉ data.*1 →
  history_buffers (update_history b timestamp data) !! metric
    = history_buffers b !! metric.
Proof.
  unfold update_history. revert b.
  induction data as [|[m value] data IH]; intros b Hnot; simpl; [done|].
  simpl in Hnot. apply not_elem_of_cons in Hnot as [Hne Hnot].
  rewrite IH by done.
  destruct (history_buffers b !! m); [simpl|done].
  by rewrite lookup_insert_ne.
Qed.

(** A metric the reading carries gets exactly one pair appended. *)
Lemma update_history_present b timestamp data metric value buf :
  NoDup data.*1 →
  (metric, value) ∈ data →
  history_buffers b !! metric = Some buf →
  history_buffers (update_history b timestamp data) !! metric
    = Some (append_bounded (max_buffer_size b) buf (timestamp, value)).
Proof.
  unfold update_history. revert b buf.
  induction data as [|[m v] data IH]; intros b buf Hnodup Hin Hbuf.
  { by apply elem_of_nil in Hin. }
  simpl in Hnodup. apply NoDup_cons in Hnodup as [Hfresh Hnodup].
  apply elem_of_cons in Hin as [[= <- <-]|Hin].
  - simpl. rewrite Hbuf.
    pose proof (update_history_absent
                  (Buffers (<[metric := append_bounded (max_buffer_size b) buf
                                          (timestamp, value)]>
                              (history_buffers b)) (max_buffer_size b))
                  timestamp data metric Hfresh) as Habsent.
    unfold update_history in Habsent. rewrite Habsent. simpl.
    by rewrite lookup_insert_eq.
  - assert (m ≠ metric) as Hne.
    { intros ->. apply Hfresh. apply list_elem_of_fmap.
      by exists (metric, value). }
    simpl. destruct (history_buffers b !! m) as [old|] eqn:Hold.
    + erewrite IH; [done|done|done|]. simpl. by rewrite lookup_insert_ne.
    + by apply IH.
Qed.

(** C7. Starting from the empty buffers of [__init__], after any sequence
    of [update_history] calls the capacity is still the 1440 of
    [__init__], there are the same four buffers and each holds at most 1440
    pairs (1).  One call appends exactly one pair, the call's timestamp
    with the metric's value, to the buffer of each metric the reading
    carries, within the capacity of the buffers (2), and leaves the other
    buffers alone (3).  The append keeps everything while there is room (4)
    and, on a full buffer, drops the oldest pair and keeps the rest in order
    before the new one (5).  On the buffers reached from [__init__] the
    append of (2) is the one of (4) and (5), at capacity 1440 (6). *)
Theorem history_buffers_bounded_fifo :
  (∀ calls : list (T * list (string * V)),
     max_buffer_size (update_history_all init calls) = 1440%nat
     ∧ dom (history_buffers (update_history_all init calls))
       = {["temperature"; "humidity"; "soil_moisture"; "light_intensity"]}
     ∧ ∀ metric buf,
         history_buffers (update_history_all init calls) !! metric = Some buf →
         (length buf ≤ 1440)%nat)
  ∧ (∀ b timestamp data metric value buf,
       NoDup data.*1 →
       (metric, value) ∈ data →
       history_buffers b !! metric = Some buf →
       history_buffers (update_history b timestamp data) !! metric
         = Some (append_bounded (max_buffer_size b) buf (timestamp, value)))
  ∧ (∀ b timestamp data metric,
       metric ∉ data.*1 →
       history_buffers (update_history b timestamp data) !! metric
         = history_buffers b !! metric)
  ∧ (∀ buf x,
       (length buf < 1440)%nat → append_bounded 1440 buf x = buf ++ [x])
  ∧ (∀ buf x,
       length buf = 1440%nat → append_bounded 1440 buf x = drop 1 buf ++ [x])
  ∧ (∀ (calls : list (T * list (string * V))) timestamp data metric value buf,
       NoDup data.*1 →
       (metric, value) ∈ data →
       history_buffers (update_history_all init calls) !! metric = Some buf →
       history_buffers
         (update_history (update_history_all init calls) timestamp data)
         !! metric
       = Some (append_bounded 1440 buf (timestamp, value))).
Proof.
  split; [|split; [|split; [|split; [|split]]]].
  - intros calls.
    destruct (update_history_all_invariant init calls) as (Hmax & Hdom & Hb).
    split; [done|]. split.
    { rewrite Hdom. unfold init. simpl. rewrite !dom_insert_L, dom_empty_L.
      set_solver. }
    intros metric buf Hbuf.
    assert (bounded (init (T := T) (V := V))) as Hinit.
    { intros m l Hl. unfold init in Hl. simpl in Hl.
      repeat (apply lookup_insert_Some in Hl as [[_ <-]|[_ Hl]];
              [simpl; lia|]).
      done. }
    apply Hb in Hinit. apply Hinit in Hbuf. by rewrite Hmax in Hbuf.
  - intros. by apply update_history_present.
  - intros. by apply update_history_absent.
  - intros. by apply append_bounded_room.
  - intros. apply append_bounded_full; [lia|done].
  - intros calls timestamp data metric value buf Hnodup Hin Hbuf.
    destruct (update_history_all_invariant (init (T := T) (V := V)) calls)
      as (Hmax & _ & _).
    rewrite (update_history_present _ timestamp data metric value buf
               Hnodup Hin Hbuf).
    by rewrite Hmax.
Qed.

End HistoryFacts.

Lemma history_buffers_bounded_fifo_witness :
  history_buffers (update_history init 0 [("temperature", 25%Q)])
    !! "temperature"
  = Some (append_bounded (max_buffer_size
                            (init (T := Z) (V := Q))) [] (0, 25%Q)).
Proof.
  apply (proj1 (proj2 history_buffers_bounded_fifo)).
  - apply NoDup_singleton.
  - apply list_elem_of_here.
  - reflexivity.
Defined.

(** Eviction on a buffer of capacity two. *)
Example fifo_eviction :
  history_buffers
    (update_history_all
       (Buffers (<["humidity" := []]> ∅) 2)
       [(1, [("humidity", 61%Q)]); (2, [("humidity", 62%Q)]);
        (3, [("humidity", 63%Q); ("pressure", 1013%Q)])])
  = <["humidity" := [(2, 62%Q); (3, 63%Q)]]> ∅.
Proof. by vm_compute. Qed.

(** ** Anomaly detection *)

#[local] Set Warnings "-inexact-float".

(** The order of binary64 numbers: [<] is asymmetric and irreflexive,
    NaN and the two zeros included. *)
Lemma compare_cont_flip (m1 m2 : positive) :
  Pos.compare_cont Eq m2 m1 = CompOpp (Pos.compare_cont Eq m1 m2).
Proof. symmetry. apply (Pos.compare_cont_antisym m1 m2 Eq). Qed.

Lemma SFcompare_antisym (x y : spec_float) :
  SFcompare x y = Some Lt → SFcompare y x = Some Gt.
Proof.
  destruct x as [sx|sx| |sx mx ex], y as [sy|sy| |sy my ey]; simpl; intros H;
    repeat match goal with b : bool |- _ => destruct b end;
    try discriminate; try reflexivity;
    rewrite (Z.compare_antisym ex ey), (compare_cont_flip mx my);
    destruct (ex ?= ey)%Z; simpl in *; try discriminate; try reflexivity;
    destruct (Pos.compare_cont Eq mx my); simpl in *;
    (discriminate || reflexivity).
Qed.

Lemma SFcompare_irrefl (x : spec_float) : SFcompare x x ≠ Some Lt.
Proof.
  destruct x as [s|s| |s m e]; simpl; try discriminate.
  - destruct s; discriminate.
  - rewrite Z.compare_refl.
    assert (Pos.compare_cont Eq m m = Eq) as -> by apply Pos.compare_cont_refl.
    destruct s; discriminate.
Qed.

Lemma ltb_asym (x y : float) :
  PrimFloat.ltb x y = true → PrimFloat.ltb y x = false.
Proof.
  rewrite !ltb_spec. unfold SFltb.
  destruct (SFcompare (Prim2SF x) (Prim2SF y)) as [[| |]|] eqn:H;
    try discriminate.
  intros _. by rewrite (SFcompare_antisym _ _ H).
Qed.

Lemma ltb_irrefl (x : float) : PrimFloat.ltb x x = false.
Proof.
  rewrite ltb_spec. unfold SFltb.
  pose proof (SFcompare_irrefl (Prim2SF x)) as H.
  destruct (SFcompare (Prim2SF x) (Prim2SF x)) as [[| |]|]; congruence.
Qed.

(** Python's [max] of two numbers is below neither of them. *)
Lemma py_max_larger (a b : float) :
  PrimFloat.ltb (py_max a b) a = false ∧ PrimFloat.ltb (py_max a b) b = false.
Proof.
  unfold py_max. destruct (PrimFloat.ltb a b) eqn:Hab.
  - split; [by apply ltb_asym|apply ltb_irrefl].
  - split; [apply ltb_irrefl|done].
Qed.

(** C4. The threshold is the larger of a floor and a share of the
    magnitude of the live value: for temperature 0.15 times the magnitude
    when that exceeds 8.0 and 8.0 otherwise, for light intensity 0.40 times
    the magnitude when that exceeds 35.0 and 35.0 otherwise, for humidity
    and soil moisture 0.40 times the magnitude when that exceeds 30.0 and
    30.0 otherwise (1); so it is below neither the floor nor the share (2).
    A record is reported exactly for the items of the reading whose metric
    has a non-empty forecast and whose deviation from the value of the
    forecast's first point, in magnitude, exceeds the threshold; the record
    carries the metric, the live value, that predicted value and the
    deviation, and its severity is high exactly when the deviation exceeds
    twice the threshold, medium otherwise (3). *)
Theorem detect_anomalies_spec :
  (∀ live,
     let magnitude := PrimFloat.abs live in
     threshold_of "temperature" live
       = (if PrimFloat.ltb 8%float (PrimFloat.mul magnitude 0.15%float)
          then PrimFloat.mul magnitude 0.15%float else 8%float)
     ∧ threshold_of "light_intensity" live
       = (if PrimFloat.ltb 35%float (PrimFloat.mul magnitude 0.40%float)
          then PrimFloat.mul magnitude 0.40%float else 35%float)
     ∧ threshold_of "humidity" live
       = (if PrimFloat.ltb 30%float (PrimFloat.mul magnitude 0.40%float)
          then PrimFloat.mul magnitude 0.40%float else 30%float)
     ∧ threshold_of "soil_moisture" live
       = (if PrimFloat.ltb 30%float (PrimFloat.mul magnitude 0.40%float)
          then PrimFloat.mul magnitude 0.40%float else 30%float))
  ∧ (∀ live,
       let magnitude := PrimFloat.abs live in
       PrimFloat.ltb (threshold_of "temperature" live) 8%float = false
       ∧ PrimFloat.ltb (threshold_of "temperature" live)
           (PrimFloat.mul magnitude 0.15%float) = false
       ∧ PrimFloat.ltb (threshold_of "light_intensity" live) 35%float = false
       ∧ PrimFloat.ltb (threshold_of "light_intensity" live)
           (PrimFloat.mul magnitude 0.40%float) = false
       ∧ PrimFloat.ltb (threshold_of "humidity" live) 30%float = false
       ∧ PrimFloat.ltb (threshold_of "humidity" live)
           (PrimFloat.mul magnitude 0.40%float) = false
       ∧ PrimFloat.ltb (threshold_of "soil_moisture" live) 30%float = false
       ∧ PrimFloat.ltb (threshold_of "soil_moisture" live)
           (PrimFloat.mul magnitude 0.40%float) = false)
  ∧ (∀ current_data predictions r,
       r ∈ detect_anomalies current_data predictions ↔
       ∃ metric live first_pred rest,
         (metric, live) ∈ current_data
         ∧ predictions !! metric = Some (first_pred :: rest)
         ∧ PrimFloat.ltb (threshold_of metric live)
             (PrimFloat.abs (PrimFloat.sub live (value first_pred))) = true
         ∧ r = Anomaly metric live (value first_pred)
                 (PrimFloat.abs (PrimFloat.sub live (value first_pred)))
                 (if PrimFloat.ltb
                       (PrimFloat.mul (threshold_of metric live) 2%float)
                       (PrimFloat.abs (PrimFloat.sub live (value first_pred)))
                  then high else medium)).
Proof.
  split; [|split].
  - intros live magnitude. unfold threshold_of, py_max. by repeat split.
  - intros live magnitude.
    assert (∀ metric floor share,
              threshold_of metric live = py_max floor share →
              PrimFloat.ltb (threshold_of metric live) floor = false
              ∧ PrimFloat.ltb (threshold_of metric live) share = false)
      as Hlarger.
    { intros metric floor share ->. apply py_max_larger. }
    destruct (Hlarger "temperature" 8%float
                (PrimFloat.mul magnitude 0.15%float) eq_refl) as [? ?].
    destruct (Hlarger "light_intensity" 35%float
                (PrimFloat.mul magnitude 0.40%float) eq_refl) as [? ?].
    destruct (Hlarger "humidity" 30%float
                (PrimFloat.mul magnitude 0.40%float) eq_refl) as [? ?].
    destruct (Hlarger "soil_moisture" 30%float
                (PrimFloat.mul magnitude 0.40%float) eq_refl) as [? ?].
    by repeat split.
  - intros current_data predictions r. unfold detect_anomalies.
    rewrite list_elem_of_omap. split.
    + intros ([metric live] & Hin & Hcheck). unfold check_metric in Hcheck.
      destruct (predictions !! metric) as [[|first_pred rest]|] eqn:Hpred;
        [done| |done].
      destruct (PrimFloat.ltb _ _) eqn:Hdev; [|done].
      injection Hcheck as <-. by exists metric, live, first_pred, rest.
    + intros (metric & live & first_pred & rest & Hin & Hpred & Hdev & ->).
      exists (metric, live). split; [done|].
      unfold check_metric. by rewrite Hpred, Hdev.
Qed.

(** A temperature of 40 against a forecast starting near 26.5 is reported,
    with medium severity; 45 against 26.5 is high; 30 is not reported. *)
Example detect_anomalies_temperature :
  let forecast : gmap string (list (ForecastPoint float)) :=
    <["temperature" := [Point "14:30" 30 26.5%float 0.9%float;
                        Point "15:00" 60 27%float 0.8%float]]> ∅ in
  detect_anomalies [("temperature", 40%float); ("quality", 1%float)] forecast
    = [Anomaly "temperature" 40%float 26.5%float 13.5%float medium]
  ∧ detect_anomalies [("temperature", 45%float)] forecast
    = [Anomaly "temperature" 45%float 26.5%float 18.5%float high]
  ∧ detect_anomalies [("temperature", 30%float)] forecast = [].
Proof. by vm_compute. Qed.

(** ** Forecast confidence *)

Section ForecastFacts.

Context {Model Poly : Type}.
Variable transform : Poly → list Z → result (list (list R)).
Variable model_predict : Model → list (list R) → result (list R).
Variable time_label : nat → Z → string.
Variable normal : string → Z → R → R.

(** A forecast has points only when the horizon is positive. *)
Lemma num_predictions_pos hours_ahead (i : nat) :
  (i < Z.to_nat (hours_ahead * 60 / FORECAST_INTERVAL_MINUTES))%nat →
  0 < hours_ahead.
Proof.
  unfold FORECAST_INTERVAL_MINUTES. intros Hlt.
  destruct (decide (0 < hours_ahead)) as [|Hneg]; [done|].
  assert (hours_ahead * 60 / 30 = hours_ahead * 2) as Hdiv.
  { replace (hours_ahead * 60) with (hours_ahead * 2 * 30) by lia.
    by rewrite Z.div_mul. }
  lia.
Qed.

(** The [i]-th future timestamp is [(i + 1)] intervals ahead. *)
Lemma future_timestamps_lookup hours_ahead i t :
  future_timestamps hours_ahead !! i = Some t →
  t = Z.of_nat (S i) * FORECAST_INTERVAL_MINUTES ∧ 0 < hours_ahead.
Proof.
  unfold future_timestamps. rewrite list_lookup_fmap.
  destruct (seq 0 _ !! i) as [k|] eqn:Hk; [simpl|done].
  apply lookup_seq in Hk as [-> Hlt]. intros [= <-]. split; [done|].
  by eapply num_predictions_pos.
Qed.

Lemma confidences_lookup hours_ahead i c :
  confidences hours_ahead !! i = Some c →
  ∃ t, future_timestamps hours_ahead !! i = Some t
       ∧ c = exp (- IZR t / IZR (hours_ahead * 60)).
Proof.
  unfold confidences. rewrite list_lookup_fmap.
  destruct (future_timestamps hours_ahead !! i) as [t|]; [simpl|done].
  intros [= <-]. eauto.
Qed.

(** The points [format_points] produces pair the timestamps with the
    confidences position by position. *)
Lemma format_points_lookup ts : ∀ i0 y_pred cs i pt,
  format_points time_label i0 ts y_pred cs !! i = Some pt →
  ∃ t c, ts !! i = Some t ∧ cs !! i = Some c
         ∧ minutes_ahead pt = t ∧ confidence pt = c.
Proof.
  induction ts as [|t ts IH]; intros i0 y_pred cs i pt; simpl; [done|].
  destruct y_pred as [|y y_pred]; [done|].
  destruct cs as [|c cs]; [done|].
  destruct i as [|i]; simpl.
  - intros [= <-]. by exists t, c.
  - apply IH.
Qed.

(** The decay of the trained path between two horizons. *)
Lemma exp_decay_lt (t1 t2 horizon : Z) :
  t1 < t2 → 0 < horizon →
  (exp (- IZR t2 / IZR horizon) < exp (- IZR t1 / IZR horizon))%R.
Proof.
  intros Ht Hh. apply exp_increasing.
  unfold Rdiv. apply Rmult_lt_compat_r.
  - apply Rinv_0_lt_compat. by apply (IZR_lt 0).
  - apply Ropp_lt_contravar. by apply IZR_lt.
Qed.

Lemma exp_decay_unit (t horizon : Z) :
  0 < t → 0 < horizon →
  (0 <= exp (- IZR t / IZR horizon) <= 1)%R.
Proof.
  intros Ht Hh. split; [left; apply exp_pos|].
  left. rewrite <- exp_0. apply exp_increasing.
  unfold Rdiv. rewrite <- Ropp_mult_distr_l.
  apply Ropp_lt_gt_0_contravar. apply Rmult_gt_0_compat.
  - by apply (IZR_lt 0).
  - apply Rinv_0_lt_compat. by apply (IZR_lt 0).
Qed.

Lemma simple_point_confidence metric current_value trend hours_ahead i :
  confidence (simple_point time_label normal metric current_value trend
                hours_ahead i) = simple_confidence hours_ahead i
  ∧ minutes_ahead (simple_point time_label normal metric current_value trend
                     hours_ahead i)
    = Z.of_nat i * FORECAST_INTERVAL_MINUTES.
Proof. done. Qed.

Lemma simple_confidence_le hours_ahead (i j : nat) :
  0 < hours_ahead → (i < j)%nat →
  (simple_confidence hours_ahead j <= simple_confidence hours_ahead i)%R.
Proof.
  intros Hh Hij. unfold simple_confidence, FORECAST_INTERVAL_MINUTES.
  apply Rle_max_compat_l.
  apply Rplus_le_compat_l, Ropp_le_contravar.
  unfold Rdiv. apply Rmult_le_compat_r.
  { left. apply Rinv_0_lt_compat. by apply (IZR_lt 0). }
  apply Rmult_le_compat_r; [lra|].
  apply IZR_le. lia.
Qed.

Lemma simple_confidence_unit hours_ahead (i : nat) :
  0 < hours_ahead →
  (0 <= simple_confidence hours_ahead i <= 1)%R.
Proof.
  intros Hh. unfold simple_confidence, FORECAST_INTERVAL_MINUTES. split.
  - eapply Rle_trans; [|apply Rmax_l]. lra.
  - apply Rmax_lub; [lra|].
    assert (0 <= IZR (Z.of_nat i * 30) / 60 / IZR hours_ahead)%R; [|lra].
    unfold Rdiv. apply Rmult_le_pos.
    + apply Rmult_le_pos; [|lra]. apply (IZR_le 0). lia.
    + left. apply Rinv_0_lt_compat. by apply (IZR_lt 0).
Qed.

Lemma predict_trained_shape p hours_ahead items : ∀ predictions out,
  predict_trained transform model_predict time_label p hours_ahead items
    predictions = Ok out →
  (∀ metric pts, predictions !! metric = Some pts →
                 forecast_shape time_label normal hours_ahead pts true) →
  ∀ metric pts, out !! metric = Some pts →
                forecast_shape time_label normal hours_ahead pts true.
Proof.
  induction items as [|[m v] items IH]; intros predictions out; simpl.
  { by intros [= <-]. }
  destruct (models p !! m) as [model|]; [|apply IH].
  destruct (forecast_metric _ _ _ _ _ _) as [points|e] eqn:Hfm; [|done].
  intros Hrest Hacc. eapply IH; [done|].
  intros metric pts. destruct (decide (m = metric)) as [->|Hne].
  - rewrite lookup_insert_eq. intros [= <-].
    unfold forecast_metric in Hfm.
    destruct (poly_features p) as [poly|]; [|done].
    destruct (transform poly _) as [X|?]; [|done].
    destruct (model_predict model X) as [y_pred|?]; [|done].
    injection Hfm as <-. by econstructor.
  - rewrite lookup_insert_ne by done. apply Hacc.
Qed.

Lemma simple_trends_fold hours_ahead current_data : ∀ predictions,
  (∀ metric pts, predictions !! metric = Some pts →
                 forecast_shape time_label normal hours_ahead pts false) →
  ∀ metric pts,
    foldl (simple_item time_label normal hours_ahead) predictions current_data
      !! metric = Some pts →
    forecast_shape time_label normal hours_ahead pts false.
Proof.
  induction current_data as [|[m v] data IH]; intros predictions Hacc; simpl.
  { apply Hacc. }
  apply IH.
  destruct (trends !! m) as [trend|]; [|done].
  intros metric pts. destruct (decide (m = metric)) as [->|Hne].
  - rewrite lookup_insert_eq. intros [= <-]. by econstructor.
  - rewrite lookup_insert_ne by done. apply Hacc.
Qed.

Lemma simple_trends_shape current_data hours_ahead metric pts :
  _predict_simple_trends time_label normal current_data hours_ahead
    !! metric = Some pts →
  forecast_shape time_label normal hours_ahead pts false.
Proof.
  unfold _predict_simple_trends. by apply simple_trends_fold.
Qed.

(** Every list [predict_future] returns has the shape of the path taken. *)
Lemma predict_future_shape p current_data hours_ahead out metric pts :
  predict_future transform model_predict time_label normal p current_data
    hours_ahead = Ok out →
  out !! metric = Some pts →
  forecast_shape time_label normal hours_ahead pts (is_trained p).
Proof.
  unfold predict_future. destruct (is_trained p); simpl.
  - intros Hout. eapply predict_trained_shape; [done|]. by intros ??.
  - intros [= <-]. apply simple_trends_shape.
Qed.

(** A point of a trained forecast. *)
Lemma trained_point hours_ahead pts i pt :
  forecast_shape time_label normal hours_ahead pts true →
  pts !! i = Some pt →
  minutes_ahead pt = Z.of_nat (S i) * FORECAST_INTERVAL_MINUTES
  ∧ confidence pt = exp (- IZR (minutes_ahead pt) / IZR (hours_ahead * 60))
  ∧ 0 < hours_ahead.
Proof.
  intros Hshape Hpt. inversion Hshape as [y_pred Hpts|]; subst.
  apply format_points_lookup in Hpt as (t & c & Ht & Hc & Hmin & Hconf).
  apply confidences_lookup in Hc as (t' & Ht' & ->).
  rewrite Ht in Ht'. injection Ht' as <-.
  apply future_timestamps_lookup in Ht as [-> Hpos].
  by rewrite Hmin, Hconf.
Qed.

(** A point of a fallback forecast. *)
Lemma simple_point_at hours_ahead pts i pt :
  forecast_shape time_label normal hours_ahead pts false →
  pts !! i = Some pt →
  minutes_ahead pt = Z.of_nat (S i) * FORECAST_INTERVAL_MINUTES
  ∧ confidence pt = simple_confidence hours_ahead (S i)
  ∧ 0 < hours_ahead.
Proof.
  intros Hshape Hpt.
  inversion Hshape as [|metric current_value trend Hpts]; subst.
  rewrite list_lookup_fmap in Hpt.
  destruct (seq 0 _ !! i) as [k|] eqn:Hk; [simpl in Hpt|done].
  apply lookup_seq in Hk as [-> Hlt]. injection Hpt as <-.
  repeat split. by eapply num_predictions_pos.
Qed.

(** C5. In a forecast list returned by one call of [predict_future], on
    either path, a later point lies further ahead and its confidence is no
    larger (1).  On the trained path the [i]-th point (counting from 0) lies
    [(i + 1)] intervals ahead, its confidence is
    [exp(- minutes_ahead / (hours_ahead * 60))], and the confidence of every
    later point is strictly smaller (2). *)
Theorem forecast_confidence_decreasing p current_data hours_ahead out metric
    pts :
  predict_future transform model_predict time_label normal p current_data
    hours_ahead = Ok out →
  out !! metric = Some pts →
  (∀ i j pi pj,
     (i < j)%nat → pts !! i = Some pi → pts !! j = Some pj →
     minutes_ahead pi < minutes_ahead pj
     ∧ (confidence pj <= confidence pi)%R)
  ∧ (is_trained p = true →
     ∀ i pi,
       pts !! i = Some pi →
       minutes_ahead pi = Z.of_nat (S i) * FORECAST_INTERVAL_MINUTES
       ∧ confidence pi
         = exp (- IZR (minutes_ahead pi) / IZR (hours_ahead * 60))
       ∧ ∀ j pj,
           (i < j)%nat → pts !! j = Some pj →
           (confidence pj < confidence pi)%R).
Proof.
  intros Hout Hpts.
  pose proof (predict_future_shape p current_data hours_ahead out metric pts
                Hout Hpts) as Hshape.
  assert (∀ i j pi pj,
            is_trained p = true →
            (i < j)%nat → pts !! i = Some pi → pts !! j = Some pj →
            minutes_ahead pi < minutes_ahead pj
            ∧ (confidence pj < confidence pi)%R) as Hstrict.
  { intros i j pi pj Htrained Hij Hi Hj. rewrite Htrained in Hshape.
    destruct (trained_point hours_ahead pts i pi Hshape Hi)
      as (Hmi & Hci & Hpos).
    destruct (trained_point hours_ahead pts j pj Hshape Hj)
      as (Hmj & Hcj & _).
    assert (minutes_ahead pi < minutes_ahead pj) as Hlt.
    { rewrite Hmi, Hmj. unfold FORECAST_INTERVAL_MINUTES. lia. }
    split; [done|]. rewrite Hci, Hcj. apply exp_decay_lt; lia. }
  split.
  - intros i j pi pj Hij Hi Hj.
    destruct (is_trained p) eqn:Htrained.
    + destruct (Hstrict i j pi pj eq_refl Hij Hi Hj) as [Hlt Hconf].
      split; [done|]. by left.
    + destruct (simple_point_at hours_ahead pts i pi Hshape Hi)
        as (Hmi & Hci & Hpos).
      destruct (simple_point_at hours_ahead pts j pj Hshape Hj)
        as (Hmj & Hcj & _).
      split.
      * rewrite Hmi, Hmj. unfold FORECAST_INTERVAL_MINUTES. lia.
      * rewrite Hci, Hcj. apply simple_confidence_le; [done|lia].
  - intros Htrained i pi Hi.
    pose proof Hshape as Hshape'. rewrite Htrained in Hshape'.
    destruct (trained_point hours_ahead pts i pi Hshape' Hi)
      as (Hmi & Hci & Hpos).
    repeat split; [done..|].
    intros j pj Hij Hj. by apply (Hstrict i j pi pj Htrained Hij Hi Hj).
Qed.

(** The forecast half of the bound on confidences: every point of every
    list [predict_future] returns has a confidence between 0 and 1. *)
Lemma forecast_confidence_unit p current_data hours_ahead out metric pts pt :
  predict_future transform model_predict time_label normal p current_data
    hours_ahead = Ok out →
  out !! metric = Some pts →
  pt ∈ pts →
  (0 <= confidence pt <= 1)%R.
Proof.
  intros Hout Hpts Hpt.
  pose proof (predict_future_shape p current_data hours_ahead out metric pts
                Hout Hpts) as Hshape.
  apply list_elem_of_lookup in Hpt as [i Hi].
  destruct (is_trained p).
  - destruct (trained_point hours_ahead pts i pt Hshape Hi)
      as (Hm & -> & Hpos).
    apply exp_decay_unit; [|lia].
    rewrite Hm. unfold FORECAST_INTERVAL_MINUTES. lia.
  - destruct (simple_point_at hours_ahead pts i pt Hshape Hi)
      as (_ & -> & Hpos).
    by apply simple_confidence_unit.
Qed.

End ForecastFacts.

Import Reference Scenarios.

Lemma forecast_confidence_decreasing_witness :
  minutes_ahead first_point < minutes_ahead second_point
  ∧ (confidence second_point <= confidence first_point)%R.
Proof.
  apply (proj1 (forecast_confidence_decreasing quadratic_transform
                  ridge_predict label no_noise temperature_predictor
                  [("temperature", 25%R)] 1
                  (<["temperature" := [first_point; second_point]]> ∅)
                  "temperature" [first_point; second_point]
                  eq_refl eq_refl)
           0%nat 1%nat first_point second_point).
  - lia.
  - reflexivity.
  - reflexivity.
Defined.

End TrendPredictorFacts.

(** ** Confidence values *)

Module ConfidenceFacts.
Import Reference Scenarios.

Section Confidence.

Context {V Classifier Regressor Poly : Type}.
Variable predict_proba_row : Classifier → list V → list Q.
Variable transform : Poly → list Z → result (list (list R)).
Variable model_predict : Regressor → list (list R) → result (list R).
Variable time_label : nat → Z → string.
Variable normal : string → Z → R → R.

(** C8. When every model reports probabilities between 0 and 1 for the
    reading, every confidence [predict_with_confidence] returns lies between
    0 and 1 (1); and every point of every forecast list [predict_future]
    returns, trained or not, has a confidence between 0 and 1 (2). *)
Theorem confidence_in_unit_interval :
  (∀ (c : ActuatorModel.controller) (sensor_data : gmap string V) out,
     (∀ actuator model,
        ActuatorModel.models c !! actuator = Some model →
        Forall (λ q, (0 <= q <= 1)%Q)
          (predict_proba_row model (ActuatorModel.input_row c sensor_data))) →
     ActuatorModel.predict_with_confidence predict_proba_row c sensor_data
       = Ok out →
     ∀ actuator decision confidence,
       out !! actuator = Some (decision, confidence) →
       (0 <= confidence <= 1)%Q)
  ∧ (∀ (p : TrendPredictor.predictor) current_data hours_ahead out,
       TrendPredictor.predict_future transform model_predict time_label normal
         p current_data hours_ahead = Ok out →
       ∀ metric pts pt,
         out !! metric = Some pts →
         pt ∈ pts →
         (0 <= TrendPredictor.confidence pt <= 1)%R).
Proof.
  split.
  - intros c sensor_data out Hproba Hout actuator decision confidence Hlook.
    destruct (ActuatorModelFacts.predict_with_confidence_lookup
                predict_proba_row c sensor_data out actuator decision
                confidence Hout Hlook) as (model & Hmodel & Hclass).
    apply ActuatorModelFacts.classify_confidence in Hclass.
    specialize (Hproba actuator model Hmodel).
    rewrite Forall_forall in Hproba. by apply Hproba.
  - intros p current_data hours_ahead out Hout metric pts pt Hpts Hpt.
    by eapply TrendPredictorFacts.forecast_confidence_unit.
Qed.

End Confidence.

Lemma confidence_in_unit_interval_witness :
  (0 <= 1 - 0 <= 1)%Q.
Proof.
  apply (proj1 (confidence_in_unit_interval majority_proba quadratic_transform
                  ridge_predict label no_noise)
           trained_before hot_reading
           (<["fan" := (false, (1 - 0)%Q)]>
              (<["pump" := (false, (1 - 0)%Q)]>
                 (<["light" := (false, (1 - 0)%Q)]> ∅)))) with "fan" false.
  - intros actuator model Hm. unfold trained_before in Hm. simpl in Hm.
    repeat (apply lookup_insert_Some in Hm as [[_ <-]|[_ Hm]];
            [by repeat constructor|]).
    done.
  - by vm_compute.
  - reflexivity.
Defined.

(** The fallback forecast of an untrained predictor, two points for one
    hour: confidences 1/2 and 3/10. *)
Example fallback_confidences :
  TrendPredictor.confidence <$>
    (TrendPredictor.simple_point label no_noise "humidity" 60 (-1) 1
       <$> [1%nat; 2%nat])
  = [Rmax (3 / 10) (1 - 30 / 60 / 1)%R; Rmax (3 / 10) (1 - 60 / 60 / 1)%R].
Proof. reflexivity. Qed.

End ConfidenceFacts.

(** * Further properties *)

(** ** The safety manager, continued *)

Module SafetyMore.
Import Safety SafetyFacts.

Lemma recent_length now l : (length (recent now l) ≤ length l)%nat.
Proof. apply sublist_length, recent_sublist. Qed.

(** One call keeps every list within the limit. *)
Lemma step_bounded h c :
  (∀ a, (length (history_of h a) ≤ MAX_COMMANDS_PER_MINUTE)%nat) →
  ∀ a, (length (history_of (step h c).1.2 a) ≤ MAX_COMMANDS_PER_MINUTE)%nat.
Proof.
  intros Hb a. unfold step.
  destruct (validate_command_outcome h (c_check c) (c_record c)
              (c_actuator c) (c_action c) (c_duration c)) as [|Hlen|Hlen];
    simpl; [done| |].
  - destruct (decide (c_actuator c = a)) as [<-|Hne].
    + rewrite history_of_insert_eq.
      etrans; [apply recent_length|apply Hb].
    + by rewrite history_of_insert_ne.
  - destruct (decide (c_actuator c = a)) as [<-|Hne].
    + rewrite history_of_insert_eq, length_app. simpl.
      unfold MAX_COMMANDS_PER_MINUTE in *. lia.
    + by rewrite history_of_insert_ne.
Qed.

Lemma run_bounded cs : ∀ h,
  (∀ a, (length (history_of h a) ≤ MAX_COMMANDS_PER_MINUTE)%nat) →
  ∀ a, (length (history_of (run h cs) a) ≤ MAX_COMMANDS_PER_MINUTE)%nat.
Proof.
  induction cs as [|c cs IH]; intros h Hb; [done|].
  rewrite run_cons. apply IH. by apply step_bounded.
Qed.

(** X1. The command history never grows past the limit: starting from the
    empty history of [__init__], after any sequence of [validate_command]
    calls, with whatever arguments and clock readings, every actuator's
    list holds at most ten times. *)
Theorem command_history_bounded (cs : list call) (actuator : string) :
  (length (history_of (run ∅ cs) actuator) ≤ 10)%nat.
Proof.
  apply (run_bounded cs ∅). intros a. unfold history_of.
  rewrite lookup_empty. simpl. unfold MAX_COMMANDS_PER_MINUTE. lia.
Qed.

Lemma recent_all_old now l :
  Forall (λ t, t ≤ now - one_minute) l → recent now l = [].
Proof.
  intros Hold. unfold recent. induction Hold as [|t l Ht _ IH]; [done|].
  rewrite filter_cons. destruct (decide (now - one_minute < t)); [lia|done].
Qed.

(** X2. The window slides: once every time recorded for an actuator lies a
    full minute or more before the clock reading of the check, a well-formed
    command is accepted however many times were recorded, and the list
    restarts with the new time alone. *)
Theorem rate_limit_recovers h t_check t_record actuator action d :
  actuator ∈ ["pump"; "fan"; "grow_light"] →
  action ∈ ["ON"; "OFF"] →
  (0 <= d)%Q →
  Forall (λ t, t ≤ t_check - one_minute) (history_of h actuator) →
  (validate_command h t_check t_record actuator action (PyNum d)).1
    = (true, <[actuator := [t_record]]> h).
Proof.
  intros Hact Haction Hd Hold.
  pose proof (recent_all_old t_check _ Hold) as Hrecent.
  destruct (validate_command_accepts h t_check t_record actuator action d)
    as (warn & _ & ->); [done|done|done| |].
  - rewrite Hrecent. simpl. unfold MAX_COMMANDS_PER_MINUTE. lia.
  - by rewrite Hrecent.
Qed.

Lemma rate_limit_recovers_witness :
  (validate_command (<["fan" := [1; 2; 3; 4; 5; 6; 7; 8; 9; 10; 11; 12]]> ∅)
     60000012 60000013 "fan" "OFF" (PyNum 0%Q)).1
  = (true, <["fan" := [60000013]]>
             (<["fan" := [1; 2; 3; 4; 5; 6; 7; 8; 9; 10; 11; 12]]> ∅)).
Proof.
  apply (rate_limit_recovers
           (<["fan" := [1; 2; 3; 4; 5; 6; 7; 8; 9; 10; 11; 12]]> ∅)
           60000012 60000013 "fan" "OFF" 0%Q).
  - apply list_elem_of_further, list_elem_of_here.
  - apply list_elem_of_further, list_elem_of_here.
  - discriminate.
  - unfold history_of. rewrite lookup_insert_eq. simpl.
    unfold one_minute. repeat constructor; lia.
Defined.

(** X3. What is accepted, for a duration that is a finite number:
    [validate_command] returns [True] exactly when the actuator is one of
    the three, the action is ON or OFF, the duration is not negative, and
    fewer than ten recorded times fall within the minute before the check.
    The duration cap plays no part. *)
Theorem validate_command_accepted_iff h t_check t_record actuator action
    (d : Q) :
  (validate_command h t_check t_record actuator action (PyNum d)).1.1 = true
  ↔ actuator ∈ ["pump"; "fan"; "grow_light"]
    ∧ action ∈ ["ON"; "OFF"]
    ∧ (0 <= d)%Q
    ∧ (length (recent t_check (history_of h actuator)) < 10)%nat.
Proof.
  split.
  - unfold validate_command.
    case_bool_decide as Hact; [simpl|done].
    case_bool_decide as Haction; [simpl|done].
    destruct (Qlt_bool d 0) eqn:Hd; [done|].
    destruct (cap_warning actuator d); [|done].
    unfold _check_rate_limit. case_bool_decide as Hlen; [done|].
    simpl. intros _. repeat split; [done|done| |].
    + by apply Qlt_bool_false.
    + unfold MAX_COMMANDS_PER_MINUTE in Hlen. lia.
  - intros (Hact & Haction & Hd & Hlen).
    by destruct (validate_command_accepts h t_check t_record actuator action
                   d Hact Haction Hd Hlen) as (warn & _ & ->).
Qed.

End SafetyMore.

(** ** Interlocks and safety limits *)

Module InterlockFacts.
Import Interlocks.

(** X4. [check_interlocks] refuses only the grow light, and refuses it
    exactly when the reading carries a temperature that is above 40 or is
    not a number; a reading with no temperature entry lets it through. *)
Theorem check_interlocks_refuses_iff actuator sensor_data :
  check_interlocks actuator sensor_data = false
  ↔ actuator = "grow_light"
    ∧ ∃ value, sensor_data !! "temperature" = Some value
               ∧ match value with
                 | SNum t => (40 < t)%Q
                 | SNone | SOther _ => True
                 end.
Proof.
  unfold check_interlocks, get0.
  case_bool_decide as Hact; [|split; [done|by intros [? _]]].
  destruct (sensor_data !! "temperature") as [[t| |b]|] eqn:Htemp; simpl.
  - destruct (Qlt_bool 40 t) eqn:Hhot.
    + apply Qlt_bool_iff in Hhot. split; [|done].
      intros _. split; [done|]. by exists (SNum t).
    + apply Qlt_bool_false in Hhot. split; [done|].
      intros (_ & value & [= <-] & Hlt).
      exfalso. by apply (Qlt_not_le _ _ Hlt).
  - split; [|done]. intros _. split; [done|]. by exists SNone.
  - split; [|done]. intros _. split; [done|]. by exists (SOther b).
  - split; [done|]. by intros (_ & value & ? & _).
Qed.

Lemma over_limit_false value limit :
  (0 <= limit)%Q →
  over_limit value limit = Some false ↔ within_limit value limit.
Proof.
  intros Hlimit. unfold over_limit, within_limit.
  destruct value as [q| |b]; simpl; [|done|].
  - destruct (Qeq_bool q 0) eqn:Hz; simpl.
    + apply Qeq_bool_iff in Hz. split; [|done]. intros _. by rewrite Hz.
    + rewrite <- Qlt_bool_false.
      destruct (Qlt_bool limit q); split; congruence.
  - destruct b; split; congruence.
Qed.

(** X5. [check_safety_limits] returns [True] exactly when none of the
    three readings raises an alert: temperature at most 45, humidity and
    soil moisture at most 95, where a missing entry, [None] and any other
    value that counts as false pass, and a value that counts as true
    without being a number fails. *)
Theorem check_safety_limits_passes_iff sensor_data :
  (check_safety_limits sensor_data).1 = true
  ↔ within_limit (get sensor_data "temperature") 45
    ∧ within_limit (get sensor_data "humidity") 95
    ∧ within_limit (get sensor_data "soil_moisture") 95.
Proof.
  rewrite <- !over_limit_false by discriminate.
  unfold check_safety_limits.
  destruct (over_limit (get sensor_data "temperature") 45) as [[|]|];
    destruct (over_limit (get sensor_data "humidity") 95) as [[|]|];
    destruct (over_limit (get sensor_data "soil_moisture") 95) as [[|]|];
    simpl; split; first [done | by intros (? & ? & ?)].
Qed.

End InterlockFacts.

(** ** Timed activations *)

Module ExpiryFacts.
Import ControlLogic Automation.

Lemma expire_one_lookup now (t : timers) a b :
  a ∈ ["pump"; "fan"; "grow_light"] →
  expire_one now t a !! b
  = if decide (a = b)
    then (λ tm, if is_expired tm now then off else tm) <$> t !! a
    else t !! b.
Proof.
  intros Ha. unfold expire_one, is_expired.
  destruct (t !! a) as [tm|] eqn:Htm; simpl.
  - destruct (started tm) as [s|].
    + destruct (Qlt_bool 0 (duration tm)
                && Qlt_bool (duration tm) (now - s)).
      * unfold deactivate_pump, deactivate_fan, deactivate_light.
        repeat (apply elem_of_cons in Ha as [->|Ha]);
          [simpl; destruct (decide _) as [<-|?];
             [by rewrite lookup_insert_eq|by rewrite lookup_insert_ne]..|].
        by apply elem_of_nil in Ha.
      * by destruct (decide (a = b)) as [<-|?].
    + by destruct (decide (a = b)) as [<-|?].
  - by destruct (decide (a = b)) as [<-|?].
Qed.

(** One expiry check on an entry that is present. *)
Lemma expiry_check_lookup (t : timers) now actuator tm :
  t !! actuator = Some tm →
  check_duration_expired t now !! actuator
  = Some (if bool_decide (actuator ∈ ["pump"; "fan"; "grow_light"])
             && is_expired tm now
          then Timer None 0%Q else tm).
Proof.
  intros Htm. unfold check_duration_expired. cbn [foldl].
  rewrite !expire_one_lookup by (repeat constructor).
  destruct (decide (actuator ∈ ["pump"; "fan"; "grow_light"])) as [Hin|Hout].
  - rewrite (bool_decide_eq_true_2 _ Hin). simpl.
    repeat (apply elem_of_cons in Hin as [->|Hin]);
      [repeat case_decide; rewrite ?Htm; done..|by apply elem_of_nil in Hin].
  - rewrite (bool_decide_eq_false_2 _ Hout). simpl.
    repeat case_decide; subst;
      try (exfalso; apply Hout; by repeat constructor).
    done.
Qed.

(** X6. What [check_duration_expired] does to a timer: the pump, fan and
    grow-light entries are reset to OFF exactly when they were started with
    a positive duration and more than that duration has elapsed; any
    other entry, and every entry that is not due, is left as it was. *)
Theorem check_duration_expired_lookup (t : timers) now actuator :
  check_duration_expired t now !! actuator
  = (λ tm, if bool_decide (actuator ∈ ["pump"; "fan"; "grow_light"])
              && is_expired tm now
           then Timer None 0%Q else tm) <$> t !! actuator.
Proof.
  unfold check_duration_expired. cbn [foldl].
  rewrite !expire_one_lookup by (repeat constructor).
  destruct (decide (actuator ∈ ["pump"; "fan"; "grow_light"])) as [Hin|Hout].
  - rewrite (bool_decide_eq_true_2 _ Hin). simpl.
    repeat (apply elem_of_cons in Hin as [->|Hin]);
      [repeat case_decide; done..|by apply elem_of_nil in Hin].
  - rewrite (bool_decide_eq_false_2 _ Hout). simpl.
    repeat case_decide; subst;
      try (exfalso; apply Hout; by repeat constructor).
    by destruct (t !! actuator).
Qed.

(** X7. A timer whose duration is zero or negative, the encoding of "on
    until switched off", survives any number of expiry checks at any
    times. *)
Theorem indefinite_never_expires (t : timers) (nows : list Q) actuator tm :
  t !! actuator = Some tm →
  (duration tm <= 0)%Q →
  foldl check_duration_expired t nows !! actuator = Some tm.
Proof.
  intros Htm Hd. revert t Htm.
  induction nows as [|now nows IH]; intros t Htm; simpl; [done|].
  apply IH. rewrite (expiry_check_lookup _ _ _ tm Htm).
  unfold is_expired. destruct (started tm); [|by rewrite andb_false_r].
  apply Qlt_bool_false in Hd. rewrite Hd. simpl. by rewrite andb_false_r.
Qed.

Lemma indefinite_never_expires_witness :
  foldl check_duration_expired (activate_fan init 100%Q 0%Q)
    [200%Q; 5000%Q; 100000%Q] !! "fan"
  = Some (Timer (Some 100%Q) 0%Q).
Proof.
  apply (indefinite_never_expires (activate_fan init 100%Q 0%Q)
           [200%Q; 5000%Q; 100000%Q] "fan" (Timer (Some 100%Q) 0%Q)).
  - reflexivity.
  - discriminate.
Defined.

(** X8. A timed activation: for an actuator started at a clock reading
    other than zero with a positive duration, the status after an expiry
    check is OFF exactly when the check's clock reading is more than the
    duration past the start. *)
Theorem timed_activation_expires (t : timers) actuator start d now now' :
  actuator ∈ ["pump"; "fan"; "grow_light"] →
  t !! actuator = Some (Timer (Some start) d) →
  ¬ (start == 0)%Q →
  (0 < d)%Q →
  get_status (check_duration_expired t now) now' actuator = OFF
  ↔ (d < now - start)%Q.
Proof.
  intros Hin Htm Hstart Hd.
  unfold get_status. rewrite (expiry_check_lookup _ _ _ _ Htm). simpl.
  rewrite (bool_decide_eq_true_2 _ Hin). simpl.
  assert (started (Timer (Some start) d) = Some start) as Hstarted.
  { unfold started. simpl. destruct (Qeq_bool start 0) eqn:Hz; [|done].
    by apply Qeq_bool_iff in Hz. }
  unfold is_expired. rewrite Hstarted. simpl.
  apply Qlt_bool_iff in Hd. rewrite Hd. simpl.
  destruct (Qlt_bool d (now - start)) eqn:Hlate.
  - apply Qlt_bool_iff in Hlate. done.
  - rewrite Hstarted. apply Qlt_bool_false in Hlate. split; [done|].
    intros Hlt. exfalso. by apply (Qlt_not_le _ _ Hlt).
Qed.

Lemma timed_activation_expires_witness :
  get_status (check_duration_expired (activate_pump init 100%Q 5%Q) 106%Q)
    107%Q "pump" = OFF
  ↔ (5 < 106 - 100)%Q.
Proof.
  apply (timed_activation_expires (activate_pump init 100%Q 5%Q) "pump"
           100%Q 5%Q 106%Q 107%Q).
  - apply list_elem_of_here.
  - reflexivity.
  - discriminate.
  - reflexivity.
Defined.

End ExpiryFacts.

(** ** Command handlers, emergency stop and auto-control *)

Module AutomationFacts.
Import Safety ControlLogic Main Interlocks Automation SafetyFacts.

(** X9. A command the safety manager rejects changes neither the timers
    nor [actuator_status], for the pump, the fan and the grow light
    alike. *)
Theorem rejected_command_changes_nothing (s : service) (k : clock)
    (p : payload) :
  ((validate_command (safety_manager s) (t_check k) (t_record k) "pump"
      (upper (p_action p)) (p_duration p)).1.1 = false →
   control_logic (handle_pump_command s k p) = control_logic s
   ∧ actuator_status (handle_pump_command s k p) = actuator_status s)
  ∧ ((validate_command (safety_manager s) (t_check k) (t_record k) "fan"
        (upper (p_action p)) (p_duration p)).1.1 = false →
     control_logic (handle_fan_command s k p) = control_logic s
     ∧ actuator_status (handle_fan_command s k p) = actuator_status s)
  ∧ ((validate_command (safety_manager s) (t_check k) (t_record k)
        "grow_light" (upper (p_action p)) (p_duration p)).1.1 = false →
     control_logic (handle_light_command s k p) = control_logic s
     ∧ actuator_status (handle_light_command s k p) = actuator_status s).
Proof.
  unfold handle_pump_command, handle_fan_command, handle_light_command.
  repeat split;
    destruct (validate_command _ _ _ _ _ _) as [[ok h] lg];
    simpl in *; by subst.
Qed.

Lemma rejected_command_changes_nothing_witness :
  control_logic
    (handle_pump_command (Service ∅ (activate_pump init 7%Q 0%Q) ∅ None)
       (Clock 0 1 9%Q 9%Q) (Payload "toggle" (PyNum 5%Q)))
  = control_logic (Service ∅ (activate_pump init 7%Q 0%Q) ∅ None)
  ∧ actuator_status
      (handle_pump_command (Service ∅ (activate_pump init 7%Q 0%Q) ∅ None)
         (Clock 0 1 9%Q 9%Q) (Payload "toggle" (PyNum 5%Q)))
    = actuator_status (Service ∅ (activate_pump init 7%Q 0%Q) ∅ None).
Proof.
  apply (proj1 (rejected_command_changes_nothing
                  (Service ∅ (activate_pump init 7%Q 0%Q) ∅ None)
                  (Clock 0 1 9%Q 9%Q) (Payload "toggle" (PyNum 5%Q)))).
  reflexivity.
Defined.

(** The inline interlock of [handle_light_command] and [check_interlocks]
    decide alike. *)
Lemma too_hot_check_interlocks (s : service) sensor_data :
  temperature s = to_pyval <$> sensor_data !! "temperature" →
  too_hot s = Some false ↔ check_interlocks "grow_light" sensor_data = true.
Proof.
  intros Htemp. unfold too_hot, check_interlocks, get0. rewrite Htemp.
  destruct (sensor_data !! "temperature") as [[t| |b]|]; simpl;
    [|done..].
  destruct (Qlt_bool 40 t); split; congruence.
Qed.

(** X10. A grow-light ON command that passes validation but is stopped
    by the temperature interlock (as [check_interlocks] decides it) leaves
    the timers and [actuator_status] as they were, and has nevertheless been
    recorded in the rate-limit window. *)
Theorem blocked_light_command_is_recorded (s : service) (k : clock)
    (p : payload) sensor_data d :
  temperature s = to_pyval <$> sensor_data !! "temperature" →
  check_interlocks "grow_light" sensor_data = false →
  upper (p_action p) = "ON" →
  p_duration p = PyNum d →
  (0 <= d)%Q →
  (length (recent (t_check k) (history_of (safety_manager s) "grow_light"))
     < 10)%nat →
  control_logic (handle_light_command s k p) = control_logic s
  ∧ actuator_status (handle_light_command s k p) = actuator_status s
  ∧ history_of (safety_manager (handle_light_command s k p)) "grow_light"
    = recent (t_check k) (history_of (safety_manager s) "grow_light")
      ++ [t_record k].
Proof.
  intros Htemp Hblocked Hon Hd Hpos Hlen.
  assert (too_hot s ≠ Some false) as Hhot.
  { rewrite (too_hot_check_interlocks s sensor_data Htemp). congruence. }
  unfold handle_light_command. rewrite Hon, Hd.
  destruct (validate_command_accepts (safety_manager s) (t_check k)
              (t_record k) "grow_light" "ON" d)
    as (warn & _ & ->); [by repeat constructor..|done|done|].
  simpl.
  assert (too_hot (Service
            (<["grow_light" :=
                 recent (t_check k) (history_of (safety_manager s) "grow_light")
                 ++ [t_record k]]> (safety_manager s))
            (control_logic s) (actuator_status s) (temperature s))
          = too_hot s) as -> by done.
  destruct (too_hot s) as [[|]|]; simpl;
    by rewrite ?history_of_insert_eq.
Qed.

Lemma blocked_light_command_is_recorded_witness :
  control_logic
    (handle_light_command (Service ∅ init ∅ (Some (PyNum 42%Q)))
       (Clock 5 6 1%Q 1%Q) (Payload "on" (PyNum 60%Q)))
  = control_logic (Service ∅ init ∅ (Some (PyNum 42%Q)))
  ∧ actuator_status
      (handle_light_command (Service ∅ init ∅ (Some (PyNum 42%Q)))
         (Clock 5 6 1%Q 1%Q) (Payload "on" (PyNum 60%Q)))
    = actuator_status (Service ∅ init ∅ (Some (PyNum 42%Q)))
  ∧ history_of
      (safety_manager
         (handle_light_command (Service ∅ init ∅ (Some (PyNum 42%Q)))
            (Clock 5 6 1%Q 1%Q) (Payload "on" (PyNum 60%Q))))
      "grow_light"
    = recent (t_check (Clock 5 6 1%Q 1%Q))
        (history_of (safety_manager (Service ∅ init ∅ (Some (PyNum 42%Q))))
           "grow_light")
      ++ [t_record (Clock 5 6 1%Q 1%Q)].
Proof.
  apply (blocked_light_command_is_recorded
           (Service ∅ init ∅ (Some (PyNum 42%Q))) (Clock 5 6 1%Q 1%Q)
           (Payload "on" (PyNum 60%Q))
           (<["temperature" := SNum 42%Q]> ∅) 60%Q).
  - reflexivity.
  - reflexivity.
  - reflexivity.
  - reflexivity.
  - discriminate.
  - vm_compute. lia.
Defined.

Lemma deactivate_all_lookup (t : timers) actuator :
  actuator ∈ ["pump"; "fan"; "grow_light"] →
  deactivate_all t !! actuator = Some (Timer None 0%Q).
Proof.
  intros Hin.
  unfold deactivate_all, deactivate_light, deactivate_fan, deactivate_pump.
  repeat (apply elem_of_cons in Hin as [->|Hin]);
    [by simplify_map_eq..|by apply elem_of_nil in Hin].
Qed.

Lemma set_status_lookup st key value st' k :
  set_status st key value = Some st' →
  st' !! k
  = if decide (key = k)
    then (λ e, StatusEntry value (last_command e) (status_duration e))
           <$> st !! k
    else st !! k.
Proof.
  unfold set_status. destruct (st !! key) as [e|] eqn:He; [simpl|done].
  intros [= <-]. destruct (decide (key = k)) as [<-|Hne].
  - by rewrite lookup_insert_eq, He.
  - by rewrite lookup_insert_ne.
Qed.

(** X11. The emergency stop.  With [enable] true every timer is OFF
    afterwards, whatever the state of [actuator_status] (1); when
    [actuator_status] has its three entries each of them reads OFF
    and keeps its last-command time and its duration (2); with [enable]
    false the handler changes nothing (3). *)
Theorem emergency_stop :
  (∀ s now,
     Forall (λ actuator,
               get_status (control_logic (handle_global_control s true)) now
                 actuator = OFF)
            ["pump"; "fan"; "grow_light"])
  ∧ (∀ s actuator e,
       (∀ a, a ∈ ["pump"; "fan"; "grow_light"] →
             is_Some (actuator_status s !! a)) →
       actuator ∈ ["pump"; "fan"; "grow_light"] →
       actuator_status s !! actuator = Some e →
       actuator_status (handle_global_control s true) !! actuator
       = Some (StatusEntry "OFF" (last_command e) (status_duration e)))
  ∧ (∀ s, handle_global_control s false = s).
Proof.
  split; [|split; [|done]].
  - intros s now. apply Forall_forall. intros actuator Hin.
    assert (control_logic (handle_global_control s true)
            = deactivate_all (control_logic s)) as ->.
    { unfold handle_global_control.
      destruct (set_status (actuator_status s) "pump" "OFF") as [st1|];
        [|done].
      destruct (set_status st1 "fan" "OFF") as [st2|]; [|done].
      by destruct (set_status st2 "grow_light" "OFF"). }
    unfold get_status. by rewrite deactivate_all_lookup.
  - intros s actuator e Hall Hin He. unfold handle_global_control.
    destruct (Hall "pump") as [e1 H1]; [by repeat constructor|].
    destruct (Hall "fan") as [e2 H2]; [by repeat constructor|].
    destruct (Hall "grow_light") as [e3 H3]; [by repeat constructor|].
    destruct (set_status (actuator_status s) "pump" "OFF") as [st1|] eqn:S1;
      [|unfold set_status in S1; by rewrite H1 in S1].
    pose proof (set_status_lookup _ _ _ _ "fan" S1) as L1f.
    rewrite decide_False, H2 in L1f by done.
    destruct (set_status st1 "fan" "OFF") as [st2|] eqn:S2;
      [|unfold set_status in S2; by rewrite L1f in S2].
    pose proof (set_status_lookup _ _ _ _ "grow_light" S1) as L1g.
    rewrite decide_False, H3 in L1g by done.
    pose proof (set_status_lookup _ _ _ _ "grow_light" S2) as L2g.
    rewrite decide_False, L1g in L2g by done.
    destruct (set_status st2 "grow_light" "OFF") as [st3|] eqn:S3;
      [|unfold set_status in S3; by rewrite L2g in S3].
    simpl.
    rewrite (set_status_lookup _ _ _ _ actuator S3),
            (set_status_lookup _ _ _ _ actuator S2),
            (set_status_lookup _ _ _ _ actuator S1).
    repeat (apply elem_of_cons in Hin as [->|Hin]);
      [repeat case_decide; try done; by rewrite He..
      |by apply elem_of_nil in Hin].
Qed.

Lemma emergency_stop_witness :
  actuator_status
    (handle_global_control
       (Service ∅ (activate_fan init 3%Q 0%Q)
          (<["pump" := StatusEntry "OFF" None 0%Q]>
             (<["fan" := StatusEntry "ON" (Some 3000) 0%Q]>
                (<["grow_light" := StatusEntry "OFF" None 0%Q]> ∅)))
          None) true) !! "fan"
  = Some (StatusEntry "OFF" (last_command (StatusEntry "ON" (Some 3000) 0%Q))
            (status_duration (StatusEntry "ON" (Some 3000) 0%Q))).
Proof.
  apply (proj1 (proj2 emergency_stop)).
  - intros a Ha.
    repeat (apply elem_of_cons in Ha as [->|Ha]);
      [by eexists..|by apply elem_of_nil in Ha].
  - apply list_elem_of_further, list_elem_of_here.
  - reflexivity.
Defined.

Lemma auto_block_in_band value lo hi key on_body off_body p :
  in_band value lo hi →
  auto_block value (below value lo) (exceeds value hi) key on_body off_body p
  = Some p
  ∧ auto_block value (exceeds value hi) (below value lo) key on_body
      off_body p = Some p.
Proof.
  unfold in_band, auto_block. destruct value as [q| |b]; [|done..].
  intros [Hlo Hhi]. simpl.
  apply Qlt_bool_false in Hlo, Hhi. by rewrite Hlo, Hhi.
Qed.

(** X12. Inside the dead bands auto-control does nothing: with soil
    moisture from 30 to 70, temperature from 25 to 30 and light from 20 to
    60, each either in its band or not reported, the timers and
    [actuator_status] are left exactly as they were. *)
Theorem auto_control_dead_band (k : auto_clock) (p : plant) :
  in_band (get (sensors p) "soil_moisture") 30 70 →
  in_band (get (sensors p) "temperature") 25 30 →
  in_band (get (sensors p) "light_intensity") 20 60 →
  perform_auto_control k p = p.
Proof.
  intros Hm Ht Hl. unfold perform_auto_control.
  rewrite (proj1 (auto_block_in_band _ 30 70 "pump" _ _ p Hm)).
  rewrite (proj2 (auto_block_in_band _ 25 30 "fan" _ _ p Ht)).
  by rewrite (proj1 (auto_block_in_band _ 20 60 "grow_light" _ _ p Hl)).
Qed.

Lemma auto_control_dead_band_witness :
  perform_auto_control (AutoClock 1%Q 1000 1%Q 1%Q)
    (Plant (<["soil_moisture" := SNum 50%Q]>
              (<["temperature" := SNum 27%Q]> ∅))
       init ∅)
  = Plant (<["soil_moisture" := SNum 50%Q]>
             (<["temperature" := SNum 27%Q]> ∅))
      init ∅.
Proof.
  apply auto_control_dead_band.
  - split; discriminate.
  - split; discriminate.
  - exact I.
Defined.

Lemma mark_lookup_ne key value st k :
  k ≠ key → mark key value st !! k = st !! k.
Proof.
  intros Hne. unfold mark.
  destruct (set_status st key value) as [st'|] eqn:Hset; [simpl|done].
  rewrite (set_status_lookup _ _ _ _ k Hset). by rewrite decide_False.
Qed.

(** A block whose tests do not raise returns, and touches only its own
    actuator. *)
Lemma auto_block_same_except value on_test off_test key on_body off_body p :
  is_Some on_test → is_Some off_test →
  is_Some (statuses p !! key) →
  same_except key p (on_body p) →
  same_except key p (off_body p) →
  ∃ p', auto_block value on_test off_test key on_body off_body p = Some p'
        ∧ same_except key p p'.
Proof.
  intros [on ->] [off ->] [e He] Hon Hoff.
  assert (same_except key p p) as Hsame by done.
  unfold auto_block, status_is. rewrite He.
  destruct value; [|by eexists|]; simpl;
    destruct on, off; simpl;
      repeat case_bool_decide; simpl; by eexists.
Qed.

(** X13. Auto-control does not consult the temperature interlock: when
    the light reading is below 20 and the grow light is marked OFF, it
    switches the grow light on, without a time limit, whatever the
    temperature reading is (the other readings being numbers or absent and
    [actuator_status] holding its three entries). *)
Theorem auto_control_ignores_interlock (k : auto_clock) (p : plant) l e :
  get (sensors p) "light_intensity" = SNum l →
  (l < 20)%Q →
  numeric_or_none (get (sensors p) "soil_moisture") →
  numeric_or_none (get (sensors p) "temperature") →
  is_Some (statuses p !! "pump") →
  is_Some (statuses p !! "fan") →
  statuses p !! "grow_light" = Some e →
  status e = "OFF" →
  control (perform_auto_control k p) !! "grow_light"
  = Some (Timer (Some (t_light k)) 0%Q).
Proof.
  intros Hlight Hl Hm Ht Hpump Hfan Hgrow Hoff.
  unfold perform_auto_control. rewrite Hlight.
  assert (∀ value limit, numeric_or_none value →
            value = SNone ∨ (is_Some (below value limit)
                             ∧ is_Some (exceeds value limit))) as Htests.
  { intros [q| |b] limit Hv; [right; split; by eexists|by left|done]. }
  set (moisture := get (sensors p) "soil_moisture") in *.
  set (temp := get (sensors p) "temperature") in *.
  assert (∃ p1, auto_block moisture (below moisture 30) (exceeds moisture 70)
                  "pump"
                  (λ p, Plant (sensors p)
                          (activate_pump (control p) (t_pump k) 300)
                          (<["pump" := StatusEntry "ON" (Some (t_pump_ms k))
                                         300]> (statuses p)))
                  (λ p, Plant (sensors p) (deactivate_pump (control p))
                          (mark "pump" "OFF" (statuses p)))
                  p = Some p1 ∧ same_except "pump" p p1) as (p1 & -> & S1).
  { destruct (Htests moisture 30%Q Hm) as [->|[Hb _]]; [by eexists|].
    destruct (Htests moisture 70%Q Hm) as [->|[_ He]]; [by eexists|].
    apply auto_block_same_except; [done..| |].
    - split; [done|]. intros k' Hk. simpl. by rewrite lookup_insert_ne.
    - split; [done|]. intros k' Hk. simpl. by apply mark_lookup_ne. }
  destruct S1 as [Hs1 Hst1].
  assert (∃ p2, auto_block temp (exceeds temp 30) (below temp 25) "fan"
                  (λ p, Plant (sensors p)
                          (activate_fan (control p) (t_fan k) 0)
                          (mark "fan" "ON" (statuses p)))
                  (λ p, Plant (sensors p) (deactivate_fan (control p))
                          (mark "fan" "OFF" (statuses p)))
                  p1 = Some p2 ∧ same_except "fan" p1 p2) as (p2 & -> & S2).
  { destruct (Htests temp 30%Q Ht) as [->|[_ He]]; [by eexists|].
    destruct (Htests temp 25%Q Ht) as [->|[Hb _]]; [by eexists|].
    apply auto_block_same_except; [done..| | |].
    - by rewrite Hst1.
    - split; [done|]. intros k' Hk. simpl. by apply mark_lookup_ne.
    - split; [done|]. intros k' Hk. simpl. by apply mark_lookup_ne. }
  destruct S2 as [Hs2 Hst2].
  assert (statuses p2 !! "grow_light" = Some e) as Hgrow2.
  { by rewrite Hst2, Hst1. }
  unfold auto_block, status_is. simpl.
  apply Qlt_bool_iff in Hl. rewrite Hl, Hgrow2. simpl.
  rewrite (bool_decide_eq_true_2 _ Hoff). simpl.
  unfold activate_light. by rewrite lookup_insert_eq.
Qed.

Lemma auto_control_ignores_interlock_witness :
  control
    (perform_auto_control (AutoClock 1%Q 1000 2%Q 3%Q)
       (Plant (<["light_intensity" := SNum 10%Q]>
                 (<["temperature" := SNum 45%Q]> ∅))
          init
          (<["pump" := StatusEntry "OFF" None 0%Q]>
             (<["fan" := StatusEntry "OFF" None 0%Q]>
                (<["grow_light" := StatusEntry "OFF" None 0%Q]> ∅)))))
    !! "grow_light"
  = Some (Timer (Some (t_light (AutoClock 1%Q 1000 2%Q 3%Q))) 0%Q).
Proof.
  apply (auto_control_ignores_interlock (AutoClock 1%Q 1000 2%Q 3%Q) _
           10%Q (StatusEntry "OFF" None 0%Q)).
  - reflexivity.
  - reflexivity.
  - exact I.
  - exact I.
  - by eexists.
  - by eexists.
  - reflexivity.
  - reflexivity.
Defined.

(** The same reading through the command path: the handler refuses. *)
Example light_command_refused_at_45 :
  check_interlocks "grow_light"
    (<["light_intensity" := SNum 10%Q]> (<["temperature" := SNum 45%Q]> ∅))
  = false
  ∧ control_logic
      (handle_light_command (Service ∅ init ∅ (Some (PyNum 45%Q)))
         (Clock 5 6 1%Q 1%Q) (Payload "ON" (PyNum 0%Q))) !! "grow_light"
    = Some (Timer None 0%Q).
Proof. by vm_compute. Qed.

End AutomationFacts.

(** ** Batch inference, evaluation and saved models *)

Module InferenceFacts.
Import ActuatorModel Inference ActuatorModelFacts.

Lemma col_index_bound name columns j :
  col_index name columns = Some j → (j < length columns)%nat.
Proof.
  revert j. induction columns as [|c columns IH]; intros j; simpl; [done|].
  case_bool_decide; [intros [= <-]; lia|].
  destruct (col_index name columns) as [j'|]; [simpl|done].
  intros [= <-]. specialize (IH j' eq_refl). lia.
Qed.

Lemma col_index_elem_of name columns :
  name ∈ columns → is_Some (col_index name columns).
Proof.
  induction columns as [|c columns IH]; intros Hin; simpl.
  { by apply elem_of_nil in Hin. }
  case_bool_decide as Hc; [by eexists|].
  apply elem_of_cons in Hin as [->|Hin]; [done|].
  destruct (IH Hin) as [j ->]. by eexists.
Qed.

Lemma col_index_None name columns :
  name ∉ columns → col_index name columns = None.
Proof.
  induction columns as [|c columns IH]; intros Hnot; simpl; [done|].
  apply not_elem_of_cons in Hnot as [Hne Hnot].
  rewrite bool_decide_eq_false_2 by done. by rewrite IH.
Qed.

(** A cell read through the row's dictionary is the cell at the column's
    position. *)
Lemma row_dict_lookup {A} columns : ∀ (row : list A) name j,
  length row = length columns →
  col_index name columns = Some j →
  row_dict columns row !! name = row !! j.
Proof.
  unfold row_dict.
  induction columns as [|c columns IH]; intros row name j Hlen Hj; [done|].
  destruct row as [|x row]; [done|].
  injection Hlen as Hlen.
  change (zip (c :: columns) (x :: row)) with ((c, x) :: zip columns row).
  rewrite list_to_map_cons.
  cbn [col_index] in Hj.
  case_bool_decide as Hc.
  - injection Hj as <-. subst c. by rewrite lookup_insert_eq.
  - destruct (col_index name columns) as [j'|] eqn:Hj'; [|done].
    injection Hj as <-. rewrite lookup_insert_ne by done.
    exact (IH row name j' Hlen Hj').
Qed.

Lemma col_indices_all names columns :
  (∀ name, name ∈ names → name ∈ columns) →
  ∃ js, col_indices names columns = Ok js.
Proof.
  induction names as [|name names IH]; intros Hall; simpl; [by eexists|].
  destruct (col_index_elem_of name columns) as [j ->].
  { apply Hall, list_elem_of_here. }
  destruct IH as [js ->]; [|by eexists].
  intros n Hn. by apply Hall, list_elem_of_further.
Qed.

Lemma col_indices_missing names columns name :
  name ∈ names → name ∉ columns →
  ∃ key, col_indices names columns = Raise (KeyError key).
Proof.
  intros Hin Hnot.
  induction names as [|n names IH]; simpl.
  { by apply elem_of_nil in Hin. }
  destruct (col_index n columns) as [j|] eqn:Hj; [|by eexists].
  apply elem_of_cons in Hin as [->|Hin].
  { by rewrite col_index_None in Hj. }
  destruct (IH Hin) as [key ->]. by eexists.
Qed.

(** Selecting the named columns of a row and reading the names from the
    row's dictionary give the same cells. *)
Lemma select_row_dict {A} names columns (row : list A) : ∀ js,
  length row = length columns →
  col_indices names columns = Ok js →
  omap (λ name, row_dict columns row !! name) names
  = omap (λ j, row !! j) js
  ∧ ∀ name, name ∈ names → is_Some (row_dict columns row !! name).
Proof.
  induction names as [|name names IH]; intros js Hlen Hjs.
  { injection Hjs as <-. split; [done|]. intros name Hin.
    by apply elem_of_nil in Hin. }
  cbn [col_indices] in Hjs.
  destruct (col_index name columns) as [j|] eqn:Hj; [|done].
  destruct (col_indices names columns) as [js'|] eqn:Hjs'; [|done].
  injection Hjs as <-. destruct (IH js' Hlen eq_refl) as [IHeq IHsome].
  pose proof (row_dict_lookup columns row name j Hlen Hj) as Hcell.
  destruct (lookup_lt_is_Some_2 row j) as [x Hx].
  { rewrite Hlen. by eapply col_index_bound. }
  split.
  - cbn [omap list_omap]. rewrite Hcell, Hx. by rewrite IHeq.
  - intros n Hn. apply elem_of_cons in Hn as [->|Hn].
    + rewrite Hcell, Hx. by eexists.
    + by apply IHsome.
Qed.

Section InferenceFacts.

Context {V Model : Type}.
Variable predict_row : Model → list V → bool.

(** X14. [batch_predict] gives each row the decision [predict] gives the
    row's dictionary: on a trained controller and a frame that has every
    declared feature among its columns, the entry of a model's column at a
    row is [predict]'s answer for that actuator on that row (1).  Unlike
    [predict] it reports a missing feature as a [KeyError] (2), and with no
    model stored it returns the empty table without looking at the
    frame (3). *)
Theorem batch_predict_agrees (c : @controller Model)
    (sensor_data_list : DataFrame V) :
  (∀ i row actuator model,
     is_trained c = true →
     (∀ feature, feature ∈ feature_names c →
                 feature ∈ df_columns sensor_data_list) →
     df_rows sensor_data_list !! i = Some row →
     length row = length (df_columns sensor_data_list) →
     models c !! actuator = Some model →
     ∃ table column predictions,
       batch_predict predict_row c sensor_data_list = Ok table
       ∧ table !! actuator = Some column
       ∧ predict predict_row c (row_dict (df_columns sensor_data_list) row)
         = Ok predictions
       ∧ column !! i = predictions !! actuator)
  ∧ (∀ feature,
       is_trained c = true →
       models c ≠ ∅ →
       feature ∈ feature_names c →
       feature ∉ df_columns sensor_data_list →
       ∃ key, batch_predict predict_row c sensor_data_list
              = Raise (KeyError key))
  ∧ (is_trained c = true →
     models c = ∅ →
     batch_predict predict_row c sensor_data_list = Ok ∅).
Proof.
  split; [|split].
  - intros i row actuator model Htrained Hall Hrow Hlen Hmodel.
    destruct (col_indices_all (feature_names c)
                (df_columns sensor_data_list) Hall) as [js Hjs].
    destruct (select_row_dict (feature_names c) (df_columns sensor_data_list)
                row js Hlen Hjs) as [Hsel Hsome].
    unfold batch_predict, predict, df_select. rewrite Htrained, Hjs.
    cbn [negb].
    rewrite bool_decide_eq_false_2.
    2:{ intros Hsize. apply map_size_empty_inv in Hsize.
        by rewrite Hsize in Hmodel. }
    destruct (missing_feature c _) as [f|] eqn:Hmiss.
    { apply missing_feature_Some in Hmiss as [Hf Hnone].
      destruct (Hsome f Hf) as [x Hx]. congruence. }
    eexists _, _, _. split; [reflexivity|].
    split; [by rewrite (lookup_fmap _ (models c)), Hmodel|].
    split; [reflexivity|].
    rewrite (lookup_fmap _ (models c)), Hmodel.
    cbn [fmap option_fmap option_map df_rows].
    rewrite !list_lookup_fmap, Hrow. cbn [fmap option_fmap option_map].
    unfold input_row. by rewrite Hsel.
  - intros feature Htrained Hmodels Hin Hnot.
    destruct (col_indices_missing _ _ feature Hin Hnot) as [key Hkey].
    unfold batch_predict, df_select. rewrite Htrained, Hkey. simpl.
    rewrite bool_decide_eq_false_2; [by eexists|].
    intros Hsize. by apply map_size_empty_inv in Hsize.
  - intros Htrained Hmodels. unfold batch_predict.
    rewrite Htrained, Hmodels. simpl. by rewrite map_size_empty.
Qed.

(** X15. [load_models] marks the controller trained whatever the file
    holds and whatever the controller was before.  After loading a file,
    [predict] on a reading that has every feature the file declares
    returns, and decides for exactly the actuators that have a model in the
    file (1).  So a controller created over a file that holds no model
    answers a complete reading with the empty dictionary, where a new
    controller without a file raises the not-trained error (2).  With no
    file [load_models] changes nothing (3). *)
Theorem loading_marks_trained :
  (∀ (c : @controller Model) file (sensor_data : gmap string V),
     Forall (λ feature, is_Some (sensor_data !! feature))
       (s_feature_names file) →
     ∃ predictions,
       predict predict_row (load_models c (Some file)) sensor_data
         = Ok predictions
       ∧ ∀ actuator, is_Some (predictions !! actuator)
                     ↔ is_Some (s_models file !! actuator))
  ∧ (∀ (sensor_data : gmap string V),
       Forall (λ feature, is_Some (sensor_data !! feature)) FEATURE_NAMES →
       predict predict_row (init (Model := Model)) sensor_data
         = Raise (ValueError "Models must be trained before prediction")
       ∧ predict predict_row
           (new_controller
              (Some (Snapshot ∅ FEATURE_NAMES TARGET_ACTUATORS)))
           sensor_data = Ok ∅)
  ∧ (∀ c : @controller Model, load_models c None = c).
Proof.
  assert (∀ (c : @controller Model) file (sensor_data : gmap string V),
            Forall (λ feature, is_Some (sensor_data !! feature))
              (s_feature_names file) →
            predict predict_row (load_models c (Some file)) sensor_data
            = Ok ((λ model,
                     predict_row model
                       (input_row (load_models c (Some file)) sensor_data))
                    <$> s_models file)) as Hload.
  { intros c file sensor_data Hall. rewrite Forall_forall in Hall.
    unfold predict, load_models. simpl.
    destruct (missing_feature _ sensor_data) as [f|] eqn:Hmiss; [|done].
    apply missing_feature_Some in Hmiss as [Hf Hnone]. simpl in Hf.
    destruct (Hall f Hf) as [x Hx]. congruence. }
  split; [|split; [|done]].
  - intros c file sensor_data Hall. eexists. split; [by apply Hload|].
    intros actuator. rewrite lookup_fmap.
    destruct (s_models file !! actuator); simpl; split; by intros [? ?].
  - intros sensor_data Hall. split; [done|].
    unfold new_controller. rewrite Hload by done. simpl.
    by rewrite fmap_empty.
Qed.

(** What the loop of [evaluate_scenarios] adds: one entry per scenario,
    and one to the count for each entry marked correct. *)
Lemma evaluate_loop_counts (c : @controller Model) scenarios :
  ∀ correct done correct' done',
    evaluate_loop predict_row c scenarios correct done
      = Ok (correct', done') →
    length done' = (length done + length scenarios)%nat
    ∧ (correct' + length (filter (λ r, r_correct r = true) done)
       = correct + length (filter (λ r, r_correct r = true) done'))%nat.
Proof.
  induction scenarios as [|sc scenarios IH];
    intros correct done correct' done' Hloop; simpl in Hloop.
  { injection Hloop as <- <-. simpl. lia. }
  destruct (predict predict_row c (sc_input sc)) as [predictions|]; [|done].
  destruct (all_correct predictions (sc_expected sc) (target_names c))
    as [ok|]; [|done].
  apply IH in Hloop as [Hlen Hcount].
  rewrite length_app in Hlen. cbn [length] in Hlen |- *. split; [lia|].
  rewrite filter_app, length_app in Hcount.
  rewrite filter_cons, filter_nil in Hcount. simpl in Hcount.
  destruct ok; simpl in Hcount; lia.
Qed.

(** X16. [evaluate_scenarios].  When it returns, the total is the number
    of scenarios, there is one entry per scenario, the count of correct
    ones is the number of entries marked correct, and the accuracy is that
    count over the total, a number from 0 to 1 (1).  On an empty list of
    scenarios a trained controller fails with a division by zero (2), and
    an untrained one is refused before anything is evaluated (3). *)
Theorem evaluate_scenarios_accuracy (c : @controller Model) :
  (∀ scenarios report,
     evaluate_scenarios predict_row c scenarios = inr report →
     ev_total report = length scenarios
     ∧ length (ev_scenarios report) = length scenarios
     ∧ ev_correct report
       = length (filter (λ r, r_correct r = true) (ev_scenarios report))
     ∧ (ev_accuracy report ==
        inject_Z (Z.of_nat (ev_correct report))
        / inject_Z (Z.of_nat (ev_total report)))%Q
     ∧ (0 <= ev_accuracy report <= 1)%Q)
  ∧ (is_trained c = true →
     evaluate_scenarios predict_row c [] = inl ZeroDivisionError)
  ∧ (is_trained c = false →
     ∀ scenarios,
       evaluate_scenarios predict_row c scenarios
       = inl (Raised (ValueError
                        "Models must be trained before evaluation"))).
Proof.
  split; [|split].
  - intros scenarios report. unfold evaluate_scenarios.
    destruct (negb (is_trained c)); [done|].
    destruct (evaluate_loop predict_row c scenarios 0 [])
      as [[correct entries]|] eqn:Hloop; [|done].
    case_bool_decide as Htotal; [done|]. intros [= <-]. simpl.
    apply evaluate_loop_counts in Hloop as [Hlen Hcount].
    simpl in Hlen, Hcount.
    assert (correct ≤ length scenarios)%nat as Hle.
    { pose proof (length_filter (λ r, r_correct r = true) entries). lia. }
    assert (Z.pos (Pos.of_nat (length scenarios))
            = Z.of_nat (length scenarios)) as Hpos.
    { rewrite <- positive_nat_Z, Nat2Pos.id; done. }
    repeat split; [done|lia| | |].
    + unfold Qeq, Qdiv, Qmult, Qinv, inject_Z. simpl.
      destruct (Z.of_nat (length scenarios)) eqn:Hz; [lia| |lia].
      simpl. injection Hpos as ->. lia.
    + unfold Qle. simpl. lia.
    + unfold Qle. simpl. rewrite Hpos. lia.
  - intros Htrained. unfold evaluate_scenarios. by rewrite Htrained.
  - intros Htrained scenarios. unfold evaluate_scenarios.
    by rewrite Htrained.
Qed.

End InferenceFacts.

Import Reference Scenarios.

(** C6, the claim as written, fails.  A controller created over a model
    file that holds no model is marked trained, and on a reading with
    every declared feature [predict] returns the empty dictionary: there
    is no decision for the fan, the pump or the light. *)
Lemma predict_without_models :
  is_trained loaded_without_models = true
  ∧ Forall (λ feature, is_Some (hot_reading !! feature))
      (feature_names loaded_without_models)
  ∧ predict majority_predict loaded_without_models hot_reading = Ok ∅
  ∧ ¬ ∀ (c : @controller Q) (sensor_data : gmap string Q),
        is_trained c = true →
        (∀ feature, feature ∈ feature_names c →
                    is_Some (sensor_data !! feature)) →
        ∃ predictions,
          predict majority_predict c sensor_data = Ok predictions
          ∧ ∀ actuator, actuator ∈ target_names c →
                        is_Some (predictions !! actuator).
Proof.
  assert (Forall (λ feature, is_Some (hot_reading !! feature))
            (feature_names loaded_without_models)) as Hcomplete.
  { apply (bool_decide_unpack _). by vm_compute. }
  assert (predict majority_predict loaded_without_models hot_reading = Ok ∅)
    as Hempty by (by vm_compute).
  split; [done|]. split; [done|]. split; [done|].
  intros Hclaim.
  destruct (Hclaim loaded_without_models hot_reading eq_refl)
    as (predictions & Hpredict & Hall).
  { by apply Forall_forall. }
  rewrite Hempty in Hpredict. injection Hpredict as <-.
  destruct (Hall "fan") as [decision Hfan]; [apply list_elem_of_here|].
  by rewrite lookup_empty in Hfan.
Qed.

Lemma batch_predict_agrees_witness :
  ∃ table column predictions,
    batch_predict majority_predict trained_before two_samples = Ok table
    ∧ table !! "fan" = Some column
    ∧ predict majority_predict trained_before
        (row_dict (df_columns two_samples) [36%Q; 40%Q; 45%Q; 85%Q])
      = Ok predictions
    ∧ column !! 0%nat = predictions !! "fan".
Proof.
  apply (proj1 (batch_predict_agrees majority_predict trained_before
                  two_samples) 0%nat [36%Q; 40%Q; 45%Q; 85%Q] "fan" 0%Q).
  - reflexivity.
  - intros feature Hfeature. exact Hfeature.
  - reflexivity.
  - reflexivity.
  - reflexivity.
Defined.

Lemma loading_marks_trained_witness :
  ∃ predictions,
    predict majority_predict
      (load_models init (Some (save_models trained_before))) hot_reading
      = Ok predictions
    ∧ ∀ actuator, is_Some (predictions !! actuator)
                  ↔ is_Some (s_models (save_models trained_before)
                               !! actuator).
Proof.
  apply (proj1 (loading_marks_trained majority_predict) init
           (save_models trained_before) hot_reading).
  apply (bool_decide_unpack _). by vm_compute.
Defined.

End InferenceFacts.

(** * The fallback forecast *)

Module FallbackFacts.
Import TrendPredictor.

Lemma clip_bounds (x lo hi : R) : (lo <= hi)%R → (lo <= clip x lo hi <= hi)%R.
Proof.
  intros Hle. unfold clip. split.
  - apply Rmin_glb; [apply Rmax_r|done].
  - apply Rmin_r.
Qed.

Lemma trends_known metric :
  is_Some (trends !! metric) ↔
  metric ∈ ["temperature"; "humidity"; "soil_moisture"; "light_intensity"].
Proof.
  unfold trends. rewrite !elem_of_cons, elem_of_nil. split.
  - intros [trend Htrend].
    repeat (apply lookup_insert_Some in Htrend as [[<- _]|[_ Htrend]];
            [tauto|]).
    done.
  - intros [->|[->|[->|[->|[]]]]];
      repeat (rewrite lookup_insert_ne by done);
      rewrite lookup_insert_eq; by eexists.
Qed.

Lemma half_hours (hours_ahead : Z) :
  hours_ahead * 60 / FORECAST_INTERVAL_MINUTES = 2 * hours_ahead.
Proof.
  unfold FORECAST_INTERVAL_MINUTES.
  replace (hours_ahead * 60) with (2 * hours_ahead * 30) by lia.
  by rewrite Z.div_mul.
Qed.

Section FallbackFacts.

Context {Model Poly : Type}.
Variable transform : Poly → list Z → result (list (list R)).
Variable model_predict : Model → list (list R) → result (list R).
Variable time_label : nat → Z → string.
Variable normal : string → Z → R → R.

(** Where an entry of the fallback forecast comes from. *)
Lemma simple_trends_origin hours_ahead data : ∀ predictions metric pts,
  foldl (simple_item time_label normal hours_ahead) predictions data
    !! metric = Some pts →
  predictions !! metric = Some pts
  ∨ ∃ current_value trend,
      (metric, current_value) ∈ data
      ∧ trends !! metric = Some trend
      ∧ pts = (λ k, simple_point time_label normal metric current_value
                      trend hours_ahead (S k))
              <$> seq 0 (Z.to_nat
                           (hours_ahead * 60 / FORECAST_INTERVAL_MINUTES)).
Proof.
  induction data as [|[m v] data IH]; intros predictions metric pts; simpl.
  { by left. }
  intros Hfold. apply IH in Hfold as [Hhere|(cv & trend & Hin & Htrend & ->)].
  - destruct (trends !! m) as [trend|] eqn:Htrend; [|by left].
    destruct (decide (m = metric)) as [->|Hne].
    + rewrite lookup_insert_eq in Hhere. injection Hhere as <-.
      right. exists v, trend. split; [apply list_elem_of_here|done].
    + rewrite lookup_insert_ne in Hhere by done. by left.
  - right. exists cv, trend. split; [by apply list_elem_of_further|done].
Qed.

Lemma simple_trends_covers hours_ahead data : ∀ predictions metric,
  is_Some (predictions !! metric)
  ∨ (metric ∈ data.*1 ∧ is_Some (trends !! metric)) →
  is_Some (foldl (simple_item time_label normal hours_ahead) predictions data
             !! metric).
Proof.
  induction data as [|[m v] data IH]; intros predictions metric; simpl.
  { intros [Hsome|[Hin _]]; [done|]. by apply elem_of_nil in Hin. }
  intros [Hsome|[Hin Htrend]]; apply IH.
  - left. destruct (trends !! m); [|done].
    destruct (decide (m = metric)) as [->|Hne].
    + by rewrite lookup_insert_eq.
    + by rewrite lookup_insert_ne.
  - apply elem_of_cons in Hin as [->|Hin]; [left|right; done].
    destruct Htrend as [trend ->]. by rewrite lookup_insert_eq.
Qed.

Lemma simple_point_clamped metric current_value trend hours_ahead i :
  is_Some (trends !! metric) →
  let v := value (simple_point time_label normal metric current_value trend
                    hours_ahead i) in
  if bool_decide (metric = "temperature")
  then (10 <= v <= 40)%R else (0 <= v <= 100)%R.
Proof.
  intros Hknown. apply trends_known in Hknown. unfold simple_point. simpl.
  case_bool_decide as Htemp; [apply clip_bounds; lra|].
  rewrite bool_decide_eq_true_2; [apply clip_bounds; lra|].
  apply elem_of_cons in Hknown as [?|Hknown]; done.
Qed.

(** X17. A forecast [predict_future] returns on an untrained predictor,
    the one of [_predict_simple_trends], for a reading and noise that are
    numbers.  It gives a list for exactly the metrics of the reading among
    temperature, humidity, soil moisture and light intensity; each list has
    two points per hour asked for; and every value lies in the range of its
    metric, 10 to 40 for temperature and 0 to 100 for the others, whatever
    numbers the reading and the noise are. *)
Theorem fallback_forecast_clamped p current_data hours_ahead out :
  is_trained p = false →
  predict_future transform model_predict time_label normal p current_data
    hours_ahead = Ok out →
  (∀ metric,
     is_Some (out !! metric) ↔
     metric ∈ current_data.*1
     ∧ metric ∈ ["temperature"; "humidity"; "soil_moisture";
                 "light_intensity"])
  ∧ ∀ metric pts,
      out !! metric = Some pts →
      length pts = Z.to_nat (2 * hours_ahead)
      ∧ ∀ pt, pt ∈ pts →
          if bool_decide (metric = "temperature")
          then (10 <= value pt <= 40)%R else (0 <= value pt <= 100)%R.
Proof.
  intros Huntrained. unfold predict_future. rewrite Huntrained. simpl.
  intros [= <-]. unfold _predict_simple_trends. split.
  - intros metric. rewrite <- trends_known. split.
    + intros [pts Hpts].
      apply simple_trends_origin in Hpts
        as [Hempty|(cv & trend & Hin & Htrend & _)]; [done|].
      split; [|by eexists]. apply list_elem_of_fmap. by exists (metric, cv).
    + intros Hboth. apply simple_trends_covers. by right.
  - intros metric pts Hpts.
    apply simple_trends_origin in Hpts
      as [Hempty|(cv & trend & Hin & Htrend & ->)]; [done|].
    split.
    + by rewrite length_fmap, length_seq, half_hours.
    + intros pt Hpt. apply list_elem_of_fmap in Hpt as (k & -> & _).
      apply simple_point_clamped. by eexists.
Qed.

End FallbackFacts.

Import Reference Scenarios.

Lemma fallback_forecast_clamped_witness :
  (∀ metric,
     is_Some (_predict_simple_trends label no_noise [("temperature", 25%R)] 1
                !! metric) ↔
     metric ∈ [("temperature", 25%R)].*1
     ∧ metric ∈ ["temperature"; "humidity"; "soil_moisture";
                 "light_intensity"])
  ∧ ∀ metric pts,
      _predict_simple_trends label no_noise [("temperature", 25%R)] 1
        !! metric = Some pts →
      length pts = Z.to_nat (2 * 1)
      ∧ ∀ pt, pt ∈ pts →
          if bool_decide (metric = "temperature")
          then (10 <= value pt <= 40)%R else (0 <= value pt <= 100)%R.
Proof.
  apply (fallback_forecast_clamped quadratic_transform ridge_predict label
           no_noise (Predictor ∅ None false) [("temperature", 25%R)] 1).
  - reflexivity.
  - reflexivity.
Defined.

End FallbackFacts.

(** * Training, retraining and saved models of the trend predictor *)

Module RetrainingFacts.
Import TrendPredictor Retraining.

Section RetrainingFacts.

Context {A Model Poly XP Score : Type}.
Variable of_nat : nat → A.
Variable new_poly : Poly.
Variable fit_transform : Poly → list (list A) → result (Poly * XP).
Variable ridge_fit : XP → list A → result Model.
Variable score : Model → XP → list A → result Score.
Variable DataFrame_of : list (string * list A) → result (DataFrame A).
Variable transform : Poly → list Z → result (list (list R)).
Variable model_predict : Model → list (list R) → result (list R).
Variable time_label : nat → Z → string.
Variable normal : string → Z → R → R.

Implicit Types (p : @predictor Model Poly) (df : DataFrame A).

(** What the loop of [train] does to the models and the scores. *)
Lemma train_loop_effect df metrics : ∀ models poly scores models' poly' r,
  train_loop fit_transform ridge_fit score df metrics models poly scores
    = (models', poly', r) →
  (∀ name, ¬ (name ∈ metrics ∧ name ∈ df_columns df) →
           models' !! name = models !! name)
  ∧ ∀ scores', r = Ok scores' →
      (∀ name, is_Some (scores' !! name) ↔
               is_Some (scores !! name)
               ∨ (name ∈ metrics ∧ name ∈ df_columns df))
      ∧ (∀ name, is_Some (models !! name)
                 ∨ (name ∈ metrics ∧ name ∈ df_columns df) →
                 is_Some (models' !! name)).
Proof.
  induction metrics as [|metric metrics IH];
    intros models poly scores models' poly' r; simpl.
  { intros [= <- <- <-]. split; [done|]. intros scores' [= <-]. split.
    - intros name. rewrite elem_of_nil. tauto.
    - intros name. rewrite elem_of_nil. tauto. }
  case_bool_decide as Hcol.
  - destruct (Inference.df_select ["timestamp"] df) as [X|e].
    2:{ intros [= <- <- <-]. by split. }
    destruct (df_col metric df) as [y|e].
    2:{ intros [= <- <- <-]. by split. }
    destruct (fit_transform poly (df_rows X)) as [[poly1 X_poly]|e].
    2:{ intros [= <- <- <-]. by split. }
    destruct (ridge_fit X_poly y) as [model|e].
    2:{ intros [= <- <- <-]. by split. }
    destruct (score model X_poly y) as [s|e].
    2:{ intros [= <- <- <-]. by split. }
    intros Hloop. apply IH in Hloop as [Hframe Hok]. split.
    + intros name Hnot. rewrite Hframe.
      * apply lookup_insert_ne. intros ->. apply Hnot.
        split; [apply list_elem_of_here|done].
      * intros [Hin Hc]. apply Hnot.
        split; [by apply list_elem_of_further|done].
    + intros scores' Hr. destruct (Hok scores' Hr) as [Hscores Hmodels].
      split.
      * intros name. rewrite Hscores, elem_of_cons.
        destruct (decide (metric = name)) as [->|Hne].
        -- rewrite lookup_insert_eq. split; [|by left; eexists].
           intros _. right. split; [by left|done].
        -- rewrite lookup_insert_ne by done. split.
           ++ intros [?|[? ?]]; [by left|right; split; [by right|done]].
           ++ intros [?|[[->|?] ?]]; [by left|done|by right].
      * intros name Hname. apply Hmodels.
        destruct (decide (metric = name)) as [->|Hne].
        -- left. by rewrite lookup_insert_eq.
        -- rewrite lookup_insert_ne by done.
           destruct Hname as [?|[Hin ?]]; [by left|].
           apply elem_of_cons in Hin as [->|Hin]; [done|by right].
  - intros Hloop. apply IH in Hloop as [Hframe Hok]. split.
    + intros name Hnot. apply Hframe. intros [Hin Hc]. apply Hnot.
      split; [by apply list_elem_of_further|done].
    + intros scores' Hr. destruct (Hok scores' Hr) as [Hscores Hmodels].
      split.
      * intros name. rewrite Hscores, elem_of_cons. split.
        -- intros [?|[? ?]]; [by left|right; split; [by right|done]].
        -- intros [?|[[->|?] ?]]; [by left|done|by right].
      * intros name Hname. apply Hmodels.
        destruct Hname as [?|[Hin ?]]; [by left|].
        apply elem_of_cons in Hin as [->|Hin]; [done|by right].
Qed.

(** The metric columns of the frame [train] works on are those of the
    frame it was given. *)
Lemma metric_column historical_data name :
  name ∈ METRICS →
  name ∈ df_columns
           (if bool_decide ("timestamp" ∈ df_columns historical_data)
            then historical_data
            else add_timestamp of_nat historical_data) ↔
  name ∈ df_columns historical_data.
Proof.
  intros Hmetric. case_bool_decide; [done|]. simpl.
  rewrite elem_of_app, list_elem_of_singleton. split; [|by left].
  intros [?| ->]; [done|]. unfold METRICS in Hmetric.
  repeat (apply elem_of_cons in Hmetric as [?|Hmetric]; [done|]).
  by apply elem_of_nil in Hmetric.
Qed.

(** X18. [train].  Whether it returns or raises, the models of names that
    are not a metric with a column in the data are the ones the predictor
    had before: training removes none (1).  When it raises, the trained
    flag is as before (2).  When it returns, the flag is set, the scores
    are those of exactly the metrics with a column in the data, and each
    of them has a model (3). *)
Theorem train_keeps_other_models p historical_data :
  let p' := (train of_nat new_poly fit_transform ridge_fit score p
               historical_data).1 in
  let r := (train of_nat new_poly fit_transform ridge_fit score p
              historical_data).2 in
  (∀ name,
     ¬ (name ∈ METRICS ∧ name ∈ df_columns historical_data) →
     models p' !! name = models p !! name)
  ∧ (∀ e, r = Raise e → is_trained p' = is_trained p)
  ∧ (∀ scores,
       r = Ok scores →
       is_trained p' = true
       ∧ (∀ name, is_Some (scores !! name) ↔
                  name ∈ METRICS ∧ name ∈ df_columns historical_data)
       ∧ ∀ name, is_Some (scores !! name) → is_Some (models p' !! name)).
Proof.
  unfold train.
  destruct (train_loop _ _ _ _ METRICS (models p) new_poly ∅)
    as [[models' poly'] r0] eqn:Hloop.
  apply train_loop_effect in Hloop as [Hframe Hok].
  assert (∀ name,
            name ∈ METRICS ∧ name ∈ df_columns historical_data ↔
            name ∈ METRICS
            ∧ name ∈ df_columns
                       (if bool_decide
                             ("timestamp" ∈ df_columns historical_data)
                        then historical_data
                        else add_timestamp of_nat historical_data))
    as Hcols.
  { intros name. split; intros [Hm Hc]; (split; [done|]);
      by apply (metric_column historical_data name Hm). }
  destruct r0 as [scores0|e0]; simpl.
  - split; [|split; [done|]].
    + intros name Hnot. apply Hframe. by rewrite <- Hcols.
    + intros scores [= <-]. destruct (Hok scores0 eq_refl) as [Hs Hm].
      split; [done|]. split.
      * intros name. rewrite Hs, Hcols, lookup_empty.
        split; [intros [[? ?]|?]; done|by right].
      * intros name Hname. apply Hm. right.
        apply Hs in Hname as [[? Hname]|Hname]; [|done].
        by rewrite lookup_empty in Hname.
  - split; [|split; [done|done]].
    intros name Hnot. apply Hframe. by rewrite <- Hcols.
Qed.




(** ** Retraining from the history *)

Lemma append_bounded_grows max_size (buf : list (A * A)) x :
  (length (append_bounded max_size buf x) ≤ S (length buf))%nat.
Proof.
  unfold append_bounded. case_bool_decide.
  - rewrite length_drop, length_app. simpl. lia.
  - rewrite length_app. simpl. lia.
Qed.

(** One reading adds at most one pair to a buffer. *)
Lemma update_history_grows (b : buffers A A) timestamp data n :
  NoDup data.*1 →
  (∀ metric buf, history_buffers b !! metric = Some buf →
                 (length buf ≤ n)%nat) →
  ∀ metric buf,
    history_buffers (update_history b timestamp data) !! metric = Some buf →
    (length buf ≤ S n)%nat.
Proof.
  intros Hnodup Hb metric buf Hbuf.
  destruct (decide (metric ∈ data.*1)) as [Hin|Hnot].
  - apply list_elem_of_fmap in Hin as ([m value] & -> & Hin). simpl in Hbuf.
    destruct (history_buffers b !! m) as [old|] eqn:Hold.
    + rewrite (TrendPredictorFacts.update_history_present b timestamp data m
                 value old Hnodup Hin Hold) in Hbuf.
      injection Hbuf as <-.
      pose proof (append_bounded_grows (max_buffer_size b) old
                    (timestamp, value)).
      pose proof (Hb m old Hold). lia.
    + destruct (TrendPredictorFacts.update_history_invariant b timestamp data)
        as (_ & Hdom & _).
      apply elem_of_dom_2 in Hbuf. rewrite Hdom in Hbuf.
      apply elem_of_dom in Hbuf as [old' Hold']. congruence.
  - rewrite TrendPredictorFacts.update_history_absent in Hbuf by done.
    pose proof (Hb metric buf Hbuf). lia.
Qed.

Lemma update_history_all_grows calls : ∀ (b : buffers A A) n,
  Forall (λ call : A * list (string * A), NoDup call.2.*1) calls →
  (∀ metric buf, history_buffers b !! metric = Some buf →
                 (length buf ≤ n)%nat) →
  ∀ metric buf,
    history_buffers (update_history_all b calls) !! metric = Some buf →
    (length buf ≤ n + length calls)%nat.
Proof.
  induction calls as [|call calls IH]; intros b n Hcalls Hb metric buf;
    simpl.
  { intros Hbuf. pose proof (Hb metric buf Hbuf). lia. }
  apply Forall_cons in Hcalls as [Hcall Hcalls].
  intros Hbuf.
  pose proof (IH (update_history b call.1 call.2) (S n) Hcalls
                (update_history_grows b call.1 call.2 n Hcall Hb)
                metric buf Hbuf).
  lia.
Qed.

(** X21. [retrain_online] does nothing, and raises nothing, while no
    buffer holds more than ten pairs (1).  In particular it does nothing
    after ten or fewer readings recorded by [update_history] on the empty
    buffers of a new predictor (2). *)
Theorem retrain_online_needs_history :
  (∀ order p (b : buffers A A),
     (∀ metric buf, history_buffers b !! metric = Some buf →
                    (length buf ≤ 10)%nat) →
     retrain_online of_nat new_poly fit_transform ridge_fit score
       DataFrame_of order p b = (p, Ok ()))
  ∧ (∀ order p (calls : list (A * list (string * A))),
       (length calls ≤ 10)%nat →
       Forall (λ call, NoDup call.2.*1) calls →
       retrain_online of_nat new_poly fit_transform ridge_fit score
         DataFrame_of order p (update_history_all init calls) = (p, Ok ())).
Proof.
  assert (∀ order p (b : buffers A A),
            (∀ metric buf, history_buffers b !! metric = Some buf →
                           (length buf ≤ 10)%nat) →
            retrain_online of_nat new_poly fit_transform ridge_fit score
              DataFrame_of order p b = (p, Ok ())) as Hguard.
  { intros order p b Hsmall. unfold retrain_online.
    rewrite bool_decide_eq_false_2; [done|].
    intros (metric & buf & Hbuf & Hlong).
    pose proof (Hsmall metric buf Hbuf). lia. }
  split; [done|].
  intros order p calls Hfew Hcalls. apply Hguard. intros metric buf Hbuf.
  pose proof (update_history_all_grows calls init 0%nat Hcalls) as Hgrow.
  assert (length buf ≤ 0 + length calls)%nat; [|lia].
  apply (Hgrow) with metric; [|done].
  intros m l Hl. unfold init in Hl. simpl in Hl.
  repeat (apply lookup_insert_Some in Hl as [[_ <-]|[_ Hl]]; [simpl; lia|]).
  done.
Qed.

End RetrainingFacts.

Import Reference TrendReference Scenarios.

(** Data with a temperature column only: one score, one model, and the
    model of a name outside the four metrics is kept. *)
Example train_on_temperature :
  let p : @predictor Q unit := Predictor (<["pressure" := 1013%Q]> ∅) None
                                 false in
  let out := train cell_of_nat tt expand mean_fit zero_score p
               (Frame ["temperature"] [[20%Q]; [22%Q]; [24%Q]]) in
  out.2 = Ok (<["temperature" := 0%Q]> ∅)
  ∧ is_trained out.1 = true
  ∧ models out.1 !! "pressure" = Some 1013%Q
  ∧ (λ m : Q, Qred m) <$> models out.1 !! "temperature" = Some 22%Q.
Proof. by vm_compute. Qed.


Lemma retrain_online_needs_history_witness :
  retrain_online cell_of_nat tt expand mean_fit zero_score frame_of_dict
    METRICS fresh
    (update_history_all init
       [(1%Q, [("temperature", 25%Q); ("humidity", 60%Q)]);
        (2%Q, [("temperature", 26%Q)])])
  = (fresh, Ok ()).
Proof.
  apply (proj2 (retrain_online_needs_history cell_of_nat tt expand mean_fit
                  zero_score frame_of_dict)).
  - simpl. lia.
  - apply (bool_decide_unpack _). vm_compute. exact I.
Defined.

(** Eleven readings of the temperature are enough: the retraining goes
    ahead and leaves a trained predictor with a temperature model. *)
Example retrain_after_eleven_readings :
  let b := update_history_all (init (T := Q) (V := Q))
             ((λ k : nat, (cell_of_nat k, [("temperature", 25%Q)]))
                <$> seq 0 11) in
  let out := retrain_online cell_of_nat tt expand mean_fit zero_score
               frame_of_dict METRICS (fresh (Model := Q) (Poly := unit)) b in
  out.2 = Ok ()
  ∧ is_trained out.1 = true
  ∧ dom (models out.1) = {["temperature"]}.
Proof. by vm_compute. Qed.

End RetrainingFacts.
